(** * ember-file-upload: the drop zone and the file chooser components

    A shallow embedding of [FileDropzoneComponent] and [FileUploadComponent].

    JavaScript objects that are shared and mutated live in explicit stores:
    the browser's [DataTransfer] objects in [heap], the queues of the
    [FileQueueService] in [fileQueue].  An event and a wrapper that hold the
    same [DataTransfer] hold the same reference, so a write through one is
    seen through the other.

    Functions that the caller supplies are opaque.  The [filter] is a
    predicate; every other call is recorded, with its arguments, in
    [invoked], in the order the calls are made, and is taken to return
    normally without re-entering the component.  Calls handed to the run loop
    with [next] wait in [scheduled].

    Handlers are computations in a state monad that can throw, so that a
    handler that dereferences a missing [event.dataTransfer] stops where the
    JavaScript does, with what it had written so far. *)

From stdpp Require Import base option list strings pretty gmap.

Set Default Proof Using "Type".
Open Scope string_scope.
Open Scope list_scope.

(** ** Browser values *)

(** [DataTransfer.dropEffect], which is also the range of the [cursor]
    argument: ['link' | 'none' | 'copy' | 'move']. *)
Inductive DropEffect := EffectLink | EffectNone | EffectCopy | EffectMove.

(** A native [File]. *)
Record File := { file_name : string; file_size : N }.

(** A [DataTransferItem]. *)
Record DataTransferItem := { item_kind : string; item_type : string }.

(** An element of [File[] | DataTransferItem[]]. *)
Inductive Entry :=
| NativeFile (f : File)
| Item (i : DataTransferItem).

(** A native [DataTransfer] object. *)
Record DataTransfer := {
  dropEffect : DropEffect;
  dt_files : list File;
  dt_items : list DataTransferItem }.

(** References to [DataTransfer] objects. *)
Definition loc := nat.

Definition set_dropEffect (v : DropEffect) (dt : DataTransfer) : DataTransfer :=
  {| dropEffect := v; dt_files := dt_files dt; dt_items := dt_items dt |}.

#[global] Instance DropEffect_eq_dec : EqDecision DropEffect.
Proof. solve_decision. Defined.
#[global] Instance File_eq_dec : EqDecision File.
Proof. solve_decision. Defined.
#[global] Instance DataTransferItem_eq_dec : EqDecision DataTransferItem.
Proof. solve_decision. Defined.
#[global] Instance Entry_eq_dec : EqDecision Entry.
Proof. solve_decision. Defined.
#[global] Instance DataTransfer_eq_dec : EqDecision DataTransfer.
Proof. solve_decision. Defined.

(** ** Values of the addon that the components import *)

(** Modelled from the spec: [FileSource] of upload-file.ts, which is not
    among the sources; the spec lists [browse], [dragAndDrop], [web] and
    [api]. *)
Inductive FileSource := Browse | DragAndDrop | Web | Api.

(** Modelled from the spec: [UploadFile] of upload-file.ts, reduced to the two
    constructor arguments the components pass; size, progress and upload state
    belong to the transport and no component reads them. *)
Record UploadFile := { upload_file : File; upload_source : FileSource }.

Definition new_UploadFile (file : File) (source : FileSource) : UploadFile :=
  {| upload_file := file; upload_source := source |}.

(** The [source] classification of a drag: ['os'] or ['web']. *)
Inductive DragSource := os | web.

(** Modelled from the spec: the fields of [DataTransferWrapper]
    (system/data-transfer-wrapper.ts, not among the sources) that the drop
    zone reads and writes: it assigns [dataTransfer] and compares [source]. *)
Record DataTransferWrapper := {
  wrapper_dataTransfer : option loc;
  wrapper_source : DragSource }.

Definition set_wrapper_dataTransfer (dt : option loc)
    (wr : DataTransferWrapper) : DataTransferWrapper :=
  {| wrapper_dataTransfer := dt; wrapper_source := wrapper_source wr |}.

Definition set_wrapper_source (s : DragSource)
    (wr : DataTransferWrapper) : DataTransferWrapper :=
  {| wrapper_dataTransfer := wrapper_dataTransfer wr; wrapper_source := s |}.

#[global] Instance FileSource_eq_dec : EqDecision FileSource.
Proof. solve_decision. Defined.
#[global] Instance UploadFile_eq_dec : EqDecision UploadFile.
Proof. solve_decision. Defined.
#[global] Instance DragSource_eq_dec : EqDecision DragSource.
Proof. solve_decision. Defined.
#[global] Instance DataTransferWrapper_eq_dec : EqDecision DataTransferWrapper.
Proof. solve_decision. Defined.

(** The key of a queue in the [FileQueueService]: [DEFAULT_QUEUE] or a
    caller's name. *)
Inductive QueueName := DEFAULT_QUEUE | Named (name : string).

#[global] Instance QueueName_eq_dec : EqDecision QueueName.
Proof. solve_decision. Defined.

#[global] Instance QueueName_countable : Countable QueueName.
Proof.
  refine (inj_countable'
    (fun q => match q with DEFAULT_QUEUE => None | Named s => Some s end)
    (fun o => match o with None => DEFAULT_QUEUE | Some s => Named s end) _).
  by intros [].
Defined.

(** ** Caller-supplied functions *)

(** A function passed in by the template: opaque, known by a handle. *)
Definition Callback := nat.

(** The argument lists the components call such functions with. *)
Inductive Arguments :=
| DragArgs (files : list Entry) (dataTransfer : option DataTransferWrapper)
| DropArgs (files : list UploadFile) (dataTransfer : option DataTransferWrapper)
| FileArg (file : UploadFile).

(** One call [callee(arguments)]. *)
Record Invocation := Invoke { callee : Callback; arguments : Arguments }.

(** ** Component arguments and state *)

(** The arguments that the classes read. *)
Record FileUploadArgs := {
  upload_arg_queue : option QueueName;
  upload_arg_name : option string;
  upload_arg_for : option string;
  upload_arg_onFileAdd : option Callback }.

Record FileUploadComponent := {
  upload_guid : nat;
  upload_args : FileUploadArgs }.

Record FileDropzoneArgs := {
  arg_queue : option QueueName;
  arg_allowUploadsFromWebsites : option bool;
  arg_cursor : option DropEffect;
  arg_filter : option (UploadFile -> bool);
  arg_onDragEnter : option Callback;
  arg_onDragLeave : option Callback;
  arg_onDrop : option Callback;
  arg_multiple : option bool;
  arg_name : option string;
  arg_onFileAdd : option Callback }.

(** The drop zone: its arguments, the [environment] of the owner's
    [config:environment] registration, the two tracked fields and the
    framework's [isDestroyed] flag. *)
Record FileDropzoneComponent := {
  guid : nat;
  args : FileDropzoneArgs;
  environment : string;
  active : bool;
  dataTransferWrapper : option DataTransferWrapper;
  isDestroyed : bool }.

Definition set_active (b : bool) (c : FileDropzoneComponent) :=
  {| guid := guid c; args := args c; environment := environment c;
     active := b; dataTransferWrapper := dataTransferWrapper c;
     isDestroyed := isDestroyed c |}.

Definition set_dataTransferWrapper (o : option DataTransferWrapper)
    (c : FileDropzoneComponent) :=
  {| guid := guid c; args := args c; environment := environment c;
     active := active c; dataTransferWrapper := o;
     isDestroyed := isDestroyed c |}.

(** ** Queues *)

(** An object registered with [Queue.addListener]: one of the two components,
    which both define [onFileAdded]. *)
Inductive Listener :=
| DropzoneListener (id : nat) (a : FileDropzoneArgs)
| UploadListener (id : nat) (a : FileUploadArgs).

Definition listener_id (l : Listener) : nat :=
  match l with DropzoneListener id _ | UploadListener id _ => id end.

(** Modelled from the spec: [Queue] of queue.ts, which is not among the
    sources: an ordered sequence of [UploadFile]s and the registered
    listeners, in registration order. *)
Record Queue := { queue_files : list UploadFile; queue_listeners : list Listener }.

Definition empty_queue : Queue := {| queue_files := []; queue_listeners := [] |}.

(** ** The world *)

Record World := {
  this : FileDropzoneComponent;
  heap : gmap loc DataTransfer;
  fileQueue : gmap QueueName Queue;
  invoked : list Invocation;
  scheduled : list Invocation }.

Definition set_this (c : FileDropzoneComponent) (w : World) : World :=
  {| this := c; heap := heap w; fileQueue := fileQueue w;
     invoked := invoked w; scheduled := scheduled w |}.

Definition set_heap (h : gmap loc DataTransfer) (w : World) : World :=
  {| this := this w; heap := h; fileQueue := fileQueue w;
     invoked := invoked w; scheduled := scheduled w |}.

Definition set_fileQueue (r : gmap QueueName Queue) (w : World) : World :=
  {| this := this w; heap := heap w; fileQueue := r;
     invoked := invoked w; scheduled := scheduled w |}.

Definition set_invoked (l : list Invocation) (w : World) : World :=
  {| this := this w; heap := heap w; fileQueue := fileQueue w;
     invoked := l; scheduled := scheduled w |}.

Definition set_scheduled (l : list Invocation) (w : World) : World :=
  {| this := this w; heap := heap w; fileQueue := fileQueue w;
     invoked := invoked w; scheduled := l |}.

(** ** Computations *)

Inductive Exception := TypeError.

Inductive Completion (A : Type) :=
| Returned (a : A)
| Thrown (e : Exception).
Arguments Returned {A} a.
Arguments Thrown {A} e.

(** A computation runs on a world and leaves a world, also when it throws:
    what it had written before the throw stays written. *)
Definition M (A : Type) : Type := World -> Completion A * World.

#[global] Instance M_ret : MRet M := fun A a w => (Returned a, w).

#[global] Instance M_bind : MBind M := fun A B k m w =>
  match m w with
  | (Returned a, w') => k a w'
  | (Thrown e, w') => (Thrown e, w')
  end.

Definition throw {A} (e : Exception) : M A := fun w => (Thrown e, w).
Definition gets {A} (f : World -> A) : M A := fun w => (Returned (f w), w).
Definition modify (f : World -> World) : M unit := fun w => (Returned tt, f w).

Definition outcome {A} (r : Completion A * World) : Completion A := fst r.
Definition world_after {A} (r : Completion A * World) : World := snd r.

(** [f?.(args)]: call the function when there is one. *)
Definition call (f : option Callback) (a : Arguments) : M unit :=
  match f with
  | Some cb => modify (fun w => set_invoked (invoked w ++ [Invoke cb a]) w)
  | None => mret tt
  end.

(** [next(target, method, ...args)] of [@ember/runloop]: the call runs in a
    later turn of the run loop. *)
Definition next (method : Callback) (a : Arguments) : M unit :=
  modify (fun w => set_scheduled (scheduled w ++ [Invoke method a]) w).

(** The next turn of the run loop: the calls that waited run, in order. *)
Definition run_next_turn : M unit :=
  modify (fun w => set_scheduled [] (set_invoked (invoked w ++ scheduled w) w)).

(** ** Listeners: [onFileAdded] of the two components *)

(** [FileUploadComponent.onFileAdded]:
    [if (this.args.onFileAdd) next(this, this.args.onFileAdd, file);] *)
Definition FileUpload_onFileAdded (a : FileUploadArgs) (file : UploadFile) : M unit :=
  match upload_arg_onFileAdd a with
  | Some onFileAdd => next onFileAdd (FileArg file)
  | None => mret tt
  end.

(** [FileDropzoneComponent.onFileAdded]: [this.args.onFileAdd?.(file);] *)
Definition FileDropzone_onFileAdded (a : FileDropzoneArgs) (file : UploadFile) : M unit :=
  call (arg_onFileAdd a) (FileArg file).

(** The method call [listener.onFileAdded(file)]. *)
Definition Listener_onFileAdded (l : Listener) (file : UploadFile) : M unit :=
  match l with
  | DropzoneListener _ a => FileDropzone_onFileAdded a file
  | UploadListener _ a => FileUpload_onFileAdded a file
  end.

(** ** The queue and the service that owns the queues *)

Fixpoint notify (ls : list Listener) (file : UploadFile) : M unit :=
  match ls with
  | [] => mret tt
  | l :: ls' => Listener_onFileAdded l file ;; notify ls' file
  end.

(** The calls that the listeners of a queue make, at once and through the run
    loop, when [file] is added. *)
Definition sync_call (file : UploadFile) (l : Listener) : list Invocation :=
  match l with
  | DropzoneListener _ a =>
      match arg_onFileAdd a with
      | Some cb => [Invoke cb (FileArg file)]
      | None => []
      end
  | UploadListener _ _ => []
  end.

Definition deferred_call (file : UploadFile) (l : Listener) : list Invocation :=
  match l with
  | DropzoneListener _ _ => []
  | UploadListener _ a =>
      match upload_arg_onFileAdd a with
      | Some cb => [Invoke cb (FileArg file)]
      | None => []
      end
  end.

(** A reference to a queue is its key in the service.  A key the service has
    not seen stands for a queue with no files and no listeners. *)
Definition the_queue (q : QueueName) (w : World) : Queue :=
  default empty_queue (fileQueue w !! q).

Definition put_queue (q : QueueName) (qu : Queue) : M unit :=
  modify (fun w => set_fileQueue (<[q := qu]> (fileQueue w)) w).

(** Modelled from the spec: [Queue.add] of queue.ts (not among the sources)
    appends the file to the ordered sequence and calls every registered
    listener's [onFileAdded(file)] synchronously, in registration order. *)
Definition Queue_add (q : QueueName) (file : UploadFile) : M unit :=
  qu ← gets (the_queue q);
  put_queue q {| queue_files := queue_files qu ++ [file];
                 queue_listeners := queue_listeners qu |} ;;
  notify (queue_listeners qu) file.

Definition is_listener (id : nat) (l : Listener) : bool :=
  bool_decide (listener_id l = id).

(** Modelled from the spec: [Queue.addListener] and [Queue.removeListener]
    maintain the listener set; removing an absent listener does nothing. *)
Definition Queue_addListener (q : QueueName) (l : Listener) : M unit :=
  qu ← gets (the_queue q);
  if existsb (is_listener (listener_id l)) (queue_listeners qu)
  then mret tt
  else put_queue q {| queue_files := queue_files qu;
                      queue_listeners := queue_listeners qu ++ [l] |}.

Definition Queue_removeListener (q : QueueName) (l : Listener) : M unit :=
  qu ← gets (the_queue q);
  put_queue q {| queue_files := queue_files qu;
                 queue_listeners :=
                   List.filter (fun l' => negb (is_listener (listener_id l) l'))
                               (queue_listeners qu) |}.

(** Modelled from the spec: [FileQueueService.findOrCreate] returns the queue
    registered under the name, or registers a new empty one and returns it. *)
Definition findOrCreate (name : QueueName) : M QueueName :=
  r ← gets fileQueue;
  match r !! name with
  | Some _ => mret name
  | None => put_queue name empty_queue ;; mret name
  end.

(** [this.args.name ?? DEFAULT_QUEUE] *)
Definition name_or_default (name : option string) : QueueName :=
  match name with Some s => Named s | None => DEFAULT_QUEUE end.

(** ** FileUploadComponent *)

Module FileUpload.

(** [get queue()] *)
Definition queue (c : FileUploadComponent) : M QueueName :=
  match upload_arg_queue (upload_args c) with
  | Some q => mret q
  | None => findOrCreate (name_or_default (upload_arg_name (upload_args c)))
  end.

Definition as_listener (c : FileUploadComponent) : Listener :=
  UploadListener (upload_guid c) (upload_args c).

(** [bindListeners]: the modifier's body, and the function it returns. *)
Definition bindListeners_install (c : FileUploadComponent) : M unit :=
  q ← queue c; Queue_addListener q (as_listener c).

Definition bindListeners_teardown (c : FileUploadComponent) : M unit :=
  q ← queue c; Queue_removeListener q (as_listener c).

(** [onFileAdded(file)] *)
Definition onFileAdded (c : FileUploadComponent) (file : UploadFile) : M unit :=
  FileUpload_onFileAdded (upload_args c) file.

(** [get for()]: [this.args.for ?? `file-input-${guidFor(this)}`], over the
    framework's [guidFor], which names an object by a string of its own. *)
Definition for_ (guidFor : nat -> string) (c : FileUploadComponent) : string :=
  default ("file-input-" +:+ guidFor (upload_guid c))
          (upload_arg_for (upload_args c)).

End FileUpload.

(** ** A concrete wrapper, for examples *)

Module Sample.

(** A drag event that carries nothing but its payload. *)
Record DragEvent := { dataTransfer : option loc }.

Definition payload (h : gmap loc DataTransfer) (l : option loc) : option DataTransfer :=
  l ≫= (h !!.).

(** Modelled from the spec: the wrapper's [source] is [os] if the payload
    resembles a real filesystem drop, heuristically: items report kind
    [file] with a resolvable native [File]; else [web]. *)
Definition classify (dt : option DataTransfer) : DragSource :=
  match dt with
  | Some dt =>
      if existsb (fun i => bool_decide (item_kind i = "file")) (dt_items dt)
         && negb (bool_decide (dt_files dt = []))
      then os else web
  | None => web
  end.

(** Modelled from the spec: the constructor of [DataTransferWrapper] adapts
    the event's payload and classifies it. *)
Definition new_DataTransferWrapper (h : gmap loc DataTransfer) (event : DragEvent)
    : DataTransferWrapper :=
  {| wrapper_dataTransfer := dataTransfer event;
     wrapper_source := classify (payload h (dataTransfer event)) |}.

(** Modelled from the spec: [filesOrItems] is the list of dragged entries if
    this is the set of files the operating system provides, else the list of
    drag items; read on the payload the wrapper points to: its files when it
    has any, else its items. *)
Definition filesOrItems (h : gmap loc DataTransfer) (wr : DataTransferWrapper)
    : list Entry :=
  match payload h (wrapper_dataTransfer wr) with
  | Some dt =>
      if bool_decide (dt_files dt = []) then Item <$> dt_items dt
      else NativeFile <$> dt_files dt
  | None => []
  end.

Definition X : File := {| file_name := "x.exe"; file_size := 10 |}.
Definition Y : File := {| file_name := "y.png"; file_size := 20 |}.

(** Two files dragged from the desktop, an image dragged from a web page, and
    two files whose items do not report kind [file]. *)
Definition os_payload : DataTransfer :=
  {| dropEffect := EffectNone; dt_files := [X; Y];
     dt_items := [ {| item_kind := "file"; item_type := "application/octet-stream" |};
                   {| item_kind := "file"; item_type := "image/png" |} ] |}.

Definition web_payload : DataTransfer :=
  {| dropEffect := EffectNone; dt_files := [];
     dt_items := [ {| item_kind := "string"; item_type := "text/uri-list" |} ] |}.

Definition odd_payload : DataTransfer :=
  {| dropEffect := EffectNone; dt_files := [X; Y]; dt_items := [] |}.

Definition sample_heap : gmap loc DataTransfer :=
  <[1 := os_payload]> (<[2 := web_payload]> (<[3 := odd_payload]> ∅)).

Definition os_event : DragEvent := {| dataTransfer := Some 1 |}.
Definition web_event : DragEvent := {| dataTransfer := Some 2 |}.
Definition odd_event : DragEvent := {| dataTransfer := Some 3 |}.

(** Callback handles. *)
Definition on_enter : Callback := 1.
Definition on_leave : Callback := 2.
Definition on_drop : Callback := 3.
Definition on_add : Callback := 4.

(** Arguments as a template gives them: the three drag callbacks and nothing
    else, so every default applies. *)
Definition plain_args : FileDropzoneArgs :=
  {| arg_queue := None; arg_allowUploadsFromWebsites := None;
     arg_cursor := None; arg_filter := None;
     arg_onDragEnter := Some on_enter; arg_onDragLeave := Some on_leave;
     arg_onDrop := Some on_drop; arg_multiple := None;
     arg_name := None; arg_onFileAdd := None |}.

Definition with_filter (f : UploadFile -> bool) (a : FileDropzoneArgs) :=
  {| arg_queue := arg_queue a;
     arg_allowUploadsFromWebsites := arg_allowUploadsFromWebsites a;
     arg_cursor := arg_cursor a; arg_filter := Some f;
     arg_onDragEnter := arg_onDragEnter a; arg_onDragLeave := arg_onDragLeave a;
     arg_onDrop := arg_onDrop a; arg_multiple := arg_multiple a;
     arg_name := arg_name a; arg_onFileAdd := arg_onFileAdd a |}.

Definition with_multiple (b : bool) (a : FileDropzoneArgs) :=
  {| arg_queue := arg_queue a;
     arg_allowUploadsFromWebsites := arg_allowUploadsFromWebsites a;
     arg_cursor := arg_cursor a; arg_filter := arg_filter a;
     arg_onDragEnter := arg_onDragEnter a; arg_onDragLeave := arg_onDragLeave a;
     arg_onDrop := arg_onDrop a; arg_multiple := Some b;
     arg_name := arg_name a; arg_onFileAdd := arg_onFileAdd a |}.

Definition with_allowUploadsFromWebsites (b : bool) (a : FileDropzoneArgs) :=
  {| arg_queue := arg_queue a;
     arg_allowUploadsFromWebsites := Some b;
     arg_cursor := arg_cursor a; arg_filter := arg_filter a;
     arg_onDragEnter := arg_onDragEnter a; arg_onDragLeave := arg_onDragLeave a;
     arg_onDrop := arg_onDrop a; arg_multiple := arg_multiple a;
     arg_name := arg_name a; arg_onFileAdd := arg_onFileAdd a |}.

(** A filter that turns executables away. *)
Definition no_exe (u : UploadFile) : bool :=
  negb (bool_decide (file_name (upload_file u) = "x.exe")).

(** A mounted drop zone: a component with arguments [a], wrapper [o] and
    flag [act], in production, over the sample payloads and an empty
    service. *)
Definition dropzone (a : FileDropzoneArgs) (act : bool)
    (o : option DataTransferWrapper) : World :=
  {| this := {| guid := 7; args := a; environment := "production";
                active := act; dataTransferWrapper := o; isDestroyed := false |};
     heap := sample_heap; fileQueue := ∅; invoked := []; scheduled := [] |}.

Definition destroy (w : World) : World :=
  set_this {| guid := guid (this w); args := args (this w);
              environment := environment (this w); active := active (this w);
              dataTransferWrapper := dataTransferWrapper (this w);
              isDestroyed := true |} w.

Definition os_wrapper : DataTransferWrapper :=
  {| wrapper_dataTransfer := Some 1; wrapper_source := os |}.
Definition web_wrapper : DataTransferWrapper :=
  {| wrapper_dataTransfer := Some 2; wrapper_source := web |}.
Definition odd_wrapper : DataTransferWrapper :=
  {| wrapper_dataTransfer := Some 3; wrapper_source := web |}.

(** The framework's [guidFor], after its habit of naming objects
    [ember] and a number. *)
Definition guidFor (n : nat) : string := "ember" +:+ pretty n.

(** A file chooser that forwards added files to [on_add], and a service whose
    default queue it listens to, next to a drop zone with an [onFileAdd] of its
    own. *)
Definition chooser : FileUploadComponent :=
  {| upload_guid := 8;
     upload_args := {| upload_arg_queue := None; upload_arg_name := None;
                       upload_arg_for := None;
                       upload_arg_onFileAdd := Some on_add |} |}.

Definition with_onFileAdd (cb : Callback) (a : FileDropzoneArgs) :=
  {| arg_queue := arg_queue a;
     arg_allowUploadsFromWebsites := arg_allowUploadsFromWebsites a;
     arg_cursor := arg_cursor a; arg_filter := arg_filter a;
     arg_onDragEnter := arg_onDragEnter a; arg_onDragLeave := arg_onDragLeave a;
     arg_onDrop := arg_onDrop a; arg_multiple := arg_multiple a;
     arg_name := arg_name a; arg_onFileAdd := Some cb |}.

Definition shared_queue : Queue :=
  {| queue_files := [];
     queue_listeners :=
       [DropzoneListener 7 (with_onFileAdd 5 plain_args);
        UploadListener (upload_guid chooser) (upload_args chooser)] |}.

Definition listened (w : World) : World :=
  set_fileQueue (<[DEFAULT_QUEUE := shared_queue]> (fileQueue w)) w.

End Sample.

(** ** FileDropzoneComponent *)

Module FileDropzone.
Section Component.

(** What the component imports from system/data-transfer-wrapper.ts, which
    is not among the sources: the type of the drag events it handles, with
    the [dataTransfer] it reads from them ([None] is the falsy value that
    [didLeaveDropzone] guards against); the constructor of the wrapper; the
    wrapper's [filesOrItems] getter, which reads the payload the wrapper
    points to. *)
Context {FileUploadDragEvent : Type}.
Variable event_dataTransfer : FileUploadDragEvent -> option loc.
Variable new_DataTransferWrapper :
  gmap loc DataTransfer -> FileUploadDragEvent -> DataTransferWrapper.
Variable filesOrItems :
  gmap loc DataTransfer -> DataTransferWrapper -> list Entry.

(** *** Getters *)

(** [get queue()] *)
Definition queue : M QueueName :=
  a ← gets (fun w => args (this w));
  match arg_queue a with
  | Some q => mret q
  | None => findOrCreate (name_or_default (arg_name a))
  end.

(** [get multiple()]: [this.args.multiple ?? true] *)
Definition multiple (w : World) : bool :=
  default true (arg_multiple (args (this w))).

(** [get files()] *)
Definition files (w : World) : list Entry :=
  let files :=
    match dataTransferWrapper (this w) with
    | Some wr => filesOrItems (heap w) wr
    | None => []
    end in
  if multiple w then files else take 1 files.

(** [get isAllowed()], as the truth value the handlers branch on. *)
Definition isAllowed (w : World) : bool :=
  bool_decide (environment (this w) = "test")
  || match dataTransferWrapper (this w) with
     | Some wr => bool_decide (wrapper_source wr = os)
     | None => false
     end
  || default false (arg_allowUploadsFromWebsites (args (this w))).

(** [get cursor()]: [this.args.cursor ?? 'copy'] *)
Definition cursor (w : World) : DropEffect :=
  default EffectCopy (arg_cursor (args (this w))).

(** *** Assignments *)

Definition assign_active (b : bool) : M unit :=
  modify (fun w => set_this (set_active b (this w)) w).

Definition assign_dataTransferWrapper (o : option DataTransferWrapper) : M unit :=
  modify (fun w => set_this (set_dataTransferWrapper o (this w)) w).

(** [event.dataTransfer.dropEffect = v]: a write to the object both the
    event and, after a refresh, the wrapper point to.  References held by
    events are allocated; [alter] has nothing to change at one that is not. *)
Definition assign_dropEffect (event : FileUploadDragEvent) (v : DropEffect) : M unit :=
  match event_dataTransfer event with
  | Some l => modify (fun w => set_heap (alter (set_dropEffect v) l (heap w)) w)
  | None => throw TypeError
  end.

(** [if (this.dataTransferWrapper)
       this.dataTransferWrapper.dataTransfer = event.dataTransfer;] *)
Definition refresh (event : FileUploadDragEvent) : M unit :=
  o ← gets (fun w => dataTransferWrapper (this w));
  match (o : option DataTransferWrapper) with
  | Some wr =>
      assign_dataTransferWrapper
        (Some (set_wrapper_dataTransfer (event_dataTransfer event) wr))
  | None => mret tt
  end.

(** *** Listener registration *)

Definition as_listener (w : World) : Listener :=
  DropzoneListener (guid (this w)) (args (this w)).

Definition bindListeners_install : M unit :=
  q ← queue; l ← gets as_listener; Queue_addListener q l.

Definition bindListeners_teardown : M unit :=
  q ← queue; l ← gets as_listener; Queue_removeListener q l.

(** [onFileAdded(file)] *)
Definition onFileAdded (file : UploadFile) : M unit :=
  a ← gets (fun w => args (this w));
  FileDropzone_onFileAdded a file.

(** *** Handlers *)

(** [didEnterDropzone(event)] *)
Definition didEnterDropzone (event : FileUploadDragEvent) : M unit :=
  h ← gets heap;
  assign_dataTransferWrapper (Some (new_DataTransferWrapper h event)) ;;
  allowed ← gets isAllowed;
  if (allowed : bool) then
    c ← gets cursor;
    assign_dropEffect event c ;;
    assign_active true ;;
    onDragEnter ← gets (fun w => arg_onDragEnter (args (this w)));
    fs ← gets files;
    wr ← gets (fun w => dataTransferWrapper (this w));
    call onDragEnter (DragArgs fs wr)
  else mret tt.

(** [didLeaveDropzone(event)] *)
Definition didLeaveDropzone (event : FileUploadDragEvent) : M unit :=
  refresh event ;;
  wr ← gets (fun w => dataTransferWrapper (this w));
  allowed ← gets isAllowed;
  if bool_decide (is_Some (wr : option DataTransferWrapper)) && allowed then
    (if bool_decide (is_Some (event_dataTransfer event))
     then c ← gets cursor; assign_dropEffect event c
     else mret tt) ;;
    onDragLeave ← gets (fun w => arg_onDragLeave (args (this w)));
    fs ← gets files;
    wr' ← gets (fun w => dataTransferWrapper (this w));
    call onDragLeave (DragArgs fs wr') ;;
    assign_dataTransferWrapper None ;;
    destroyed ← gets (fun w => isDestroyed (this w));
    if (destroyed : bool) then mret tt
    else assign_active false
  else mret tt.

(** [didDragOver(event)] *)
Definition didDragOver (event : FileUploadDragEvent) : M unit :=
  refresh event ;;
  allowed ← gets isAllowed;
  if (allowed : bool) then
    c ← gets cursor;
    assign_dropEffect event c
  else mret tt.

(** [addFiles(files)]: the loop, with [addedFiles] as it stands when the
    loop reaches [files]. *)
Fixpoint addFiles_loop (files : list Entry) (addedFiles : list UploadFile)
    : M (list UploadFile) :=
  match files with
  | [] => mret addedFiles
  | NativeFile file :: rest =>
      let uploadFile := new_UploadFile file DragAndDrop in
      filter ← gets (fun w => arg_filter (args (this w)));
      if match (filter : option (UploadFile -> bool)) with
         | Some f => negb (f uploadFile)
         | None => false
         end
      then addFiles_loop rest addedFiles
      else
        q ← queue;
        Queue_add q uploadFile ;;
        addFiles_loop rest (addedFiles ++ [uploadFile])
  | Item _ :: rest => addFiles_loop rest addedFiles
  end.

Definition addFiles (files : list Entry) : M (list UploadFile) :=
  addFiles_loop files [].

(** [didDrop(event)] *)
Definition didDrop (event : FileUploadDragEvent) : M unit :=
  refresh event ;;
  allowed ← gets isAllowed;
  if negb (allowed : bool) then
    c ← gets cursor;
    assign_dropEffect event c ;;
    assign_dataTransferWrapper None
  else
    wr ← gets (fun w => dataTransferWrapper (this w));
    if bool_decide (is_Some (wr : option DataTransferWrapper)) then
      fs ← gets files;
      addedFiles ← addFiles fs;
      onDrop ← gets (fun w => arg_onDrop (args (this w)));
      wr' ← gets (fun w => dataTransferWrapper (this w));
      call onDrop (DropArgs addedFiles wr') ;;
      assign_active false ;;
      assign_dataTransferWrapper None
    else mret tt.

(** *** What the handlers compute, written out *)

(** The world after [refresh event]. *)
Definition refreshed (event : FileUploadDragEvent) (w : World) : World :=
  match dataTransferWrapper (this w) with
  | Some wr =>
      set_this (set_dataTransferWrapper
                  (Some (set_wrapper_dataTransfer (event_dataTransfer event) wr))
                  (this w)) w
  | None => w
  end.

(** The world after the first statement of [didEnterDropzone]. *)
Definition entered (event : FileUploadDragEvent) (w : World) : World :=
  set_this (set_dataTransferWrapper
              (Some (new_DataTransferWrapper (heap w) event)) (this w)) w.

(** The world after [event.dataTransfer.dropEffect = this.cursor] on an event
    whose payload is [l]. *)
Definition with_cursor (l : loc) (w : World) : World :=
  set_heap (alter (set_dropEffect (cursor w)) l (heap w)) w.

(** The queue that [get queue()] returns. *)
Definition target_queue (w : World) : QueueName :=
  match arg_queue (args (this w)) with
  | Some q => q
  | None => name_or_default (arg_name (args (this w)))
  end.

(** The files of the component's queue. *)
Definition queued (w : World) : list UploadFile :=
  queue_files (the_queue (target_queue w) w).

(** [!(this.args.filter && !this.args.filter(uploadFile))] *)
Definition passes (w : World) (uploadFile : UploadFile) : bool :=
  match arg_filter (args (this w)) with
  | Some f => f uploadFile
  | None => true
  end.

(** The conversion of a dropped entry: a native [File] becomes an
    [UploadFile] tagged with the drag-and-drop source, anything else is
    passed over. *)
Definition convert (e : Entry) : option UploadFile :=
  match e with
  | NativeFile file => Some (new_UploadFile file DragAndDrop)
  | Item _ => None
  end.

(** The spec's account of a drop: convert each dropped native file, keep the
    ones that pass the filter. *)
Definition accepted (w : World) (fs : list Entry) : list UploadFile :=
  List.filter (passes w) (omap convert fs).

(** One [this.queue.add(uploadFile)], and one for each file of a list, in
    order. *)
Definition enqueue (uploadFile : UploadFile) : M unit :=
  q ← queue; Queue_add q uploadFile.


(** The listeners of the component's queue. *)
Definition listening (w : World) : list Listener :=
  queue_listeners (the_queue (target_queue w) w).

(** The spec's two states of the drop zone. *)
Definition idle (w : World) : Prop :=
  active (this w) = false /\ dataTransferWrapper (this w) = None.

Definition dragging (w : World) : Prop :=
  active (this w) = true /\ is_Some (dataTransferWrapper (this w)).

(** [f?.(args)] as the list of calls it makes. *)
Definition called (f : option Callback) (a : Arguments) : list Invocation :=
  match f with
  | Some cb => [Invoke cb a]
  | None => []
  end.

(** World updates the handlers are made of. *)
Definition activate (b : bool) (w : World) : World :=
  set_this (set_active b (this w)) w.

Definition clear_wrapper (w : World) : World :=
  set_this (set_dataTransferWrapper None (this w)) w.

Definition record_calls (cs : list Invocation) (w : World) : World :=
  set_invoked (invoked w ++ cs) w.

(** The world after [this.queue.add] of each file of [us], in order: the
    files are appended to the component's queue, the listeners of that queue
    are told of each file in turn. *)
Definition enqueued (us : list UploadFile) (w : World) : World :=
  match us with
  | [] => w
  | _ =>
      {| this := this w;
         heap := heap w;
         fileQueue :=
           <[target_queue w :=
               {| queue_files := queued w ++ us;
                  queue_listeners := listening w |}]> (fileQueue w);
         invoked :=
           invoked w ++ flat_map (fun u => flat_map (sync_call u) (listening w)) us;
         scheduled :=
           scheduled w ++ flat_map (fun u => flat_map (deferred_call u) (listening w)) us |}
  end.

(** What the wrapper offers before [multiple] is looked at:
    [this.dataTransferWrapper?.filesOrItems ?? []]. *)
Definition candidates (w : World) : list Entry :=
  match dataTransferWrapper (this w) with
  | Some wr => filesOrItems (heap w) wr
  | None => []
  end.

(** The world with the stored wrapper, if any, classified as [s]. *)
Definition classified (s : DragSource) (w : World) : World :=
  match dataTransferWrapper (this w) with
  | Some wr =>
      set_this (set_dataTransferWrapper (Some (set_wrapper_source s wr)) (this w)) w
  | None => w
  end.

(** *** Calls of the handlers, one after the other *)

(** A call of one of the four handlers with its event. *)
Inductive Action :=
| Enter (event : FileUploadDragEvent)
| Leave (event : FileUploadDragEvent)
| Over (event : FileUploadDragEvent)
| Drop (event : FileUploadDragEvent).

Definition action_event (a : Action) : FileUploadDragEvent :=
  match a with Enter e | Leave e | Over e | Drop e => e end.

Definition perform (a : Action) : M unit :=
  match a with
  | Enter event => didEnterDropzone event
  | Leave event => didLeaveDropzone event
  | Over event => didDragOver event
  | Drop event => didDrop event
  end.

(** Each handler runs as the listener of an event of its own: a handler that
    throws ends that call, and the next call finds the world as it was
    left. *)
Definition after (a : Action) (w : World) : World :=
  world_after (perform a w).

Definition after_all (actions : list Action) (w : World) : World :=
  fold_left (fun w a => after a w) actions w.

(** A configuration in which the policy permits every drag. *)
Definition permissive (w : World) : Prop :=
  environment (this w) = "test"
  \/ arg_allowUploadsFromWebsites (args (this w)) = Some true.

(** A payload with its [dropEffect] blanked: what the handlers never write
    to. *)
Definition contents (dt : DataTransfer) : list File * list DataTransferItem :=
  (dt_files dt, dt_items dt).

(** What every handler keeps, from a world [w] to a later world [w']: the
    component's configuration; the files already in its queue, to which only
    files tagged [DragAndDrop] are added; the listeners of that queue; every
    other queue; the files and items of every payload. *)
Definition preserved (w w' : World) : Prop :=
  args (this w') = args (this w)
  /\ environment (this w') = environment (this w)
  /\ guid (this w') = guid (this w)
  /\ isDestroyed (this w') = isDestroyed (this w)
  /\ (exists added,
        queued w' = queued w ++ added
        /\ Forall (fun u => upload_source u = DragAndDrop) added)
  /\ listening w' = listening w
  /\ (forall q, q <> target_queue w -> fileQueue w' !! q = fileQueue w !! q)
  /\ (forall l : loc, contents <$> heap w' !! l = contents <$> heap w !! l).

(** The world with the framework's [isDestroyed] flag of the component set
    to [b]. *)
Definition set_isDestroyed (b : bool) (w : World) : World :=
  set_this {| guid := guid (this w); args := args (this w);
              environment := environment (this w); active := active (this w);
              dataTransferWrapper := dataTransferWrapper (this w);
              isDestroyed := b |} w.

(** *** The monad's plumbing *)

Ltac run :=
  unfold mbind, mret, M_bind, M_ret, gets, modify, throw; cbn beta iota.

(** Case analysis on the stored wrapper of [w]. *)
Ltac case_wrapper w :=
  let H := fresh "Hwrapper" in
  destruct (dataTransferWrapper (this w)) eqn:H; cbn; rewrite ?H; try reflexivity.

Lemma call_spec (f : option Callback) (a : Arguments) (w : World) :
  call f a w = (Returned tt, record_calls (called f a) w).
Proof.
  destruct f as [cb|]; [reflexivity|].
  destruct w; unfold record_calls, set_invoked; cbn.
  by rewrite app_nil_r.
Qed.

Lemma notify_spec (ls : list Listener) (file : UploadFile) (w : World) :
  notify ls file w =
  (Returned tt,
   set_scheduled (scheduled w ++ flat_map (deferred_call file) ls)
     (set_invoked (invoked w ++ flat_map (sync_call file) ls) w)).
Proof.
  revert w. induction ls as [|l ls IH]; intros w.
  - destruct w; cbn. by rewrite !app_nil_r.
  - cbn [notify flat_map sync_call deferred_call]. unfold mbind, M_bind.
    destruct l as [id a|id a]; cbn [Listener_onFileAdded sync_call deferred_call].
    + unfold FileDropzone_onFileAdded. rewrite call_spec, IH.
      destruct w; unfold record_calls, set_scheduled, set_invoked; cbn.
      by rewrite <- app_assoc.
    + unfold FileUpload_onFileAdded, next.
      destruct (upload_arg_onFileAdd a) as [cb|]; cbn; rewrite IH;
        destruct w; unfold set_scheduled, set_invoked; cbn;
        by rewrite <- ?app_assoc.
Qed.

Lemma queue_spec (w : World) :
  queue w =
  (Returned (target_queue w),
   match arg_queue (args (this w)) with
   | Some _ => w
   | None =>
       match fileQueue w !! target_queue w with
       | Some _ => w
       | None => set_fileQueue (<[target_queue w := empty_queue]> (fileQueue w)) w
       end
   end).
Proof.
  unfold queue, target_queue, findOrCreate, put_queue. run.
  destruct (arg_queue (args (this w))); [reflexivity|].
  by destruct (fileQueue w !! name_or_default (arg_name (args (this w)))).
Qed.

Lemma enqueue_spec (u : UploadFile) (w : World) :
  enqueue u w = (Returned tt, enqueued [u] w).
Proof.
  unfold enqueue. run. rewrite queue_spec.
  unfold Queue_add, put_queue, enqueued, queued, listening, the_queue. run.
  destruct (arg_queue (args (this w))) as [q|] eqn:Hq.
  - rewrite notify_spec. cbn. rewrite !app_nil_r. reflexivity.
  - destruct (fileQueue w !! target_queue w) as [qu|] eqn:Hl.
    + rewrite notify_spec. cbn. rewrite !app_nil_r, ?Hl. reflexivity.
    + cbn. rewrite lookup_insert_eq. cbn.
      rewrite !app_nil_r, insert_insert_eq. reflexivity.
Qed.

Lemma enqueued_cons_eq (u : UploadFile) (us : list UploadFile) (w : World) :
  enqueued (u :: us) w =
  {| this := this w;
     heap := heap w;
     fileQueue :=
       <[target_queue w :=
           {| queue_files := queued w ++ u :: us;
              queue_listeners := listening w |}]> (fileQueue w);
     invoked :=
       invoked w
       ++ flat_map (fun u => flat_map (sync_call u) (listening w)) (u :: us);
     scheduled :=
       scheduled w
       ++ flat_map (fun u => flat_map (deferred_call u) (listening w)) (u :: us) |}.
Proof. reflexivity. Qed.

Lemma this_enqueued (us : list UploadFile) (w : World) :
  this (enqueued us w) = this w.
Proof. by destruct us. Qed.

Lemma heap_enqueued (us : list UploadFile) (w : World) :
  heap (enqueued us w) = heap w.
Proof. by destruct us. Qed.

Lemma target_queue_enqueued (us : list UploadFile) (w : World) :
  target_queue (enqueued us w) = target_queue w.
Proof. by destruct us. Qed.

Lemma queued_enqueued (us : list UploadFile) (w : World) :
  queued (enqueued us w) = queued w ++ us.
Proof.
  destruct us as [|u us]; [by rewrite app_nil_r|].
  unfold queued at 1, the_queue. rewrite target_queue_enqueued, enqueued_cons_eq.
  cbn [fileQueue]. by rewrite lookup_insert_eq.
Qed.

Lemma listening_enqueued (us : list UploadFile) (w : World) :
  listening (enqueued us w) = listening w.
Proof.
  destruct us as [|u us]; [done|].
  unfold listening at 1, the_queue. rewrite target_queue_enqueued, enqueued_cons_eq.
  cbn [fileQueue]. by rewrite lookup_insert_eq.
Qed.

Lemma invoked_enqueued (us : list UploadFile) (w : World) :
  invoked (enqueued us w) =
  invoked w ++ flat_map (fun u => flat_map (sync_call u) (listening w)) us.
Proof. destruct us; [by rewrite app_nil_r | done]. Qed.

Lemma scheduled_enqueued (us : list UploadFile) (w : World) :
  scheduled (enqueued us w) =
  scheduled w ++ flat_map (fun u => flat_map (deferred_call u) (listening w)) us.
Proof. destruct us; [by rewrite app_nil_r | done]. Qed.

(** Queues other than the component's are left alone. *)
Lemma other_queues_enqueued (us : list UploadFile) (w : World) (q : QueueName) :
  q <> target_queue w -> fileQueue (enqueued us w) !! q = fileQueue w !! q.
Proof.
  intros Hq. destruct us as [|u us]; [done|].
  rewrite enqueued_cons_eq. cbn [fileQueue]. by rewrite lookup_insert_ne.
Qed.

Lemma enqueued_app (us1 us2 : list UploadFile) (w : World) :
  enqueued us2 (enqueued us1 w) = enqueued (us1 ++ us2) w.
Proof.
  destruct us2 as [|u2 us2]; [by rewrite app_nil_r|].
  destruct us1 as [|u1 us1]; [done|].
  rewrite (enqueued_cons_eq u2).
  rewrite queued_enqueued, listening_enqueued, target_queue_enqueued,
    this_enqueued, heap_enqueued, invoked_enqueued, scheduled_enqueued.
  rewrite !enqueued_cons_eq. cbn [fileQueue app].
  rewrite insert_insert_eq, <- !app_assoc. cbn [app].
  rewrite (enqueued_cons_eq u1 (us1 ++ u2 :: us2)).
  change (u1 :: us1 ++ u2 :: us2) with ((u1 :: us1) ++ u2 :: us2).
  by rewrite !flat_map_app.
Qed.


Lemma passes_enqueued (us : list UploadFile) (w : World) :
  passes (enqueued us w) = passes w.
Proof. unfold passes. by rewrite this_enqueued. Qed.

Lemma accepted_enqueued (us : list UploadFile) (w : World) (fs : list Entry) :
  accepted (enqueued us w) fs = accepted w fs.
Proof. unfold accepted. by rewrite passes_enqueued. Qed.

Lemma addFiles_loop_native (file : File) (rest : list Entry)
    (addedFiles : list UploadFile) (w : World) :
  let uploadFile := new_UploadFile file DragAndDrop in
  addFiles_loop (NativeFile file :: rest) addedFiles w =
  if passes w uploadFile
  then match enqueue uploadFile w with
       | (Returned _, w') => addFiles_loop rest (addedFiles ++ [uploadFile]) w'
       | (Thrown e, w') => (Thrown e, w')
       end
  else addFiles_loop rest addedFiles w.
Proof.
  cbn [addFiles_loop]. unfold enqueue, passes. run.
  destruct (arg_filter (args (this w))) as [f|].
  - destruct (f (new_UploadFile file DragAndDrop)); cbn [negb]; [|done].
    destruct (queue w) as [[q|e] w']; [|done].
    by destruct (Queue_add q (new_UploadFile file DragAndDrop) w') as [[[]|e] w''].
  - destruct (queue w) as [[q|e] w']; [|done].
    by destruct (Queue_add q (new_UploadFile file DragAndDrop) w') as [[[]|e] w''].
Qed.

(** The loop of [addFiles] adds the accepted files, in order. *)
Lemma addFiles_loop_spec (fs : list Entry) (addedFiles : list UploadFile) (w : World) :
  addFiles_loop fs addedFiles w =
  (Returned (addedFiles ++ accepted w fs), enqueued (accepted w fs) w).
Proof.
  revert addedFiles w. induction fs as [|[file|i] fs IH]; intros addedFiles w.
  - cbn. by rewrite app_nil_r.
  - rewrite addFiles_loop_native. unfold accepted. cbn [omap list_omap convert].
    fold (omap convert fs). cbn [List.filter].
    destruct (passes w (new_UploadFile file DragAndDrop)) eqn:Hk.
    + rewrite enqueue_spec, IH.
      rewrite accepted_enqueued, (enqueued_app [_]).
      unfold accepted. by rewrite <- app_assoc.
    + apply IH.
  - cbn [addFiles_loop]. rewrite IH. reflexivity.
Qed.

Lemma addFiles_spec (fs : list Entry) (w : World) :
  addFiles fs w = (Returned (accepted w fs), enqueued (accepted w fs) w).
Proof. unfold addFiles. by rewrite addFiles_loop_spec. Qed.

(** *** The handlers, written out *)

Lemma refresh_spec (event : FileUploadDragEvent) (w : World) :
  refresh event w = (Returned tt, refreshed event w).
Proof.
  unfold refresh, refreshed, assign_dataTransferWrapper. run.
  case_wrapper w.
Qed.

(** A refresh changes the wrapper's payload, not its [source]: the policy
    reads the same before and after. *)
Lemma isAllowed_refreshed (event : FileUploadDragEvent) (w : World) :
  isAllowed (refreshed event w) = isAllowed w.
Proof.
  unfold isAllowed, refreshed. case_wrapper w.
Qed.

Lemma cursor_refreshed (event : FileUploadDragEvent) (w : World) :
  cursor (refreshed event w) = cursor w.
Proof.
  unfold cursor, refreshed. case_wrapper w.
Qed.

Lemma assign_dropEffect_spec (event : FileUploadDragEvent) (w : World) :
  assign_dropEffect event (cursor w) w =
  match event_dataTransfer event with
  | Some l => (Returned tt, with_cursor l w)
  | None => (Thrown TypeError, w)
  end.
Proof. unfold assign_dropEffect. destruct (event_dataTransfer event); reflexivity. Qed.

Lemma didDragOver_spec (event : FileUploadDragEvent) (w : World) :
  didDragOver event w =
  if isAllowed w then
    match event_dataTransfer event with
    | Some l => (Returned tt, with_cursor l (refreshed event w))
    | None => (Thrown TypeError, refreshed event w)
    end
  else (Returned tt, refreshed event w).
Proof.
  unfold didDragOver. run. rewrite refresh_spec, isAllowed_refreshed.
  destruct (isAllowed w); [|reflexivity]. apply assign_dropEffect_spec.
Qed.

Lemma didEnterDropzone_spec (event : FileUploadDragEvent) (w : World) :
  didEnterDropzone event w =
  if isAllowed (entered event w) then
    match event_dataTransfer event with
    | Some l =>
        let w' := activate true (with_cursor l (entered event w)) in
        (Returned tt,
         record_calls
           (called (arg_onDragEnter (args (this w)))
                   (DragArgs (files w') (dataTransferWrapper (this w')))) w')
    | None => (Thrown TypeError, entered event w)
    end
  else (Returned tt, entered event w).
Proof.
  unfold didEnterDropzone, assign_dataTransferWrapper. run.
  fold (entered event w).
  destruct (isAllowed (entered event w)); [|reflexivity].
  rewrite assign_dropEffect_spec.
  destruct (event_dataTransfer event) as [l|]; [|reflexivity].
  unfold assign_active. run. rewrite call_spec. reflexivity.
Qed.

Lemma didLeaveDropzone_spec (event : FileUploadDragEvent) (w : World) :
  didLeaveDropzone event w =
  if bool_decide (is_Some (dataTransferWrapper (this w))) && isAllowed w then
    let w1 :=
      match event_dataTransfer event with
      | Some l => with_cursor l (refreshed event w)
      | None => refreshed event w
      end in
    let w2 :=
      clear_wrapper
        (record_calls
           (called (arg_onDragLeave (args (this w)))
                   (DragArgs (files w1) (dataTransferWrapper (this w1)))) w1) in
    (Returned tt, if isDestroyed (this w) then w2 else activate false w2)
  else (Returned tt, refreshed event w).
Proof.
  unfold didLeaveDropzone. run. rewrite refresh_spec, isAllowed_refreshed.
  assert (Hwr : bool_decide (is_Some (dataTransferWrapper (this (refreshed event w))))
                = bool_decide (is_Some (dataTransferWrapper (this w)))).
  { unfold refreshed. case_wrapper w. }
  rewrite Hwr.
  destruct (bool_decide _ && isAllowed w); [|reflexivity].
  assert (Hd : isDestroyed (this (refreshed event w)) = isDestroyed (this w)).
  { unfold refreshed. case_wrapper w. }
  assert (Ha : args (this (refreshed event w)) = args (this w)).
  { unfold refreshed. case_wrapper w. }
  unfold assign_dataTransferWrapper, assign_active.
  destruct (event_dataTransfer event) as [l|] eqn:Hl; run.
  - rewrite bool_decide_eq_true_2 by eauto. cbn beta iota.
    rewrite assign_dropEffect_spec, Hl, call_spec. cbn. rewrite Hd, Ha.
    destruct (isDestroyed (this w)); reflexivity.
  - rewrite bool_decide_eq_false_2 by (by intros [? ?]). cbn beta iota.
    rewrite call_spec. cbn. rewrite Hd, Ha.
    destruct (isDestroyed (this w)); reflexivity.
Qed.

Lemma didDrop_spec (event : FileUploadDragEvent) (w : World) :
  didDrop event w =
  let w1 := refreshed event w in
  if isAllowed w then
    if bool_decide (is_Some (dataTransferWrapper (this w))) then
      let us := accepted w (files w1) in
      (Returned tt,
       clear_wrapper
         (activate false
            (record_calls
               (called (arg_onDrop (args (this w)))
                       (DropArgs us (dataTransferWrapper (this w1))))
               (enqueued us w1))))
    else (Returned tt, w1)
  else
    match event_dataTransfer event with
    | Some l => (Returned tt, clear_wrapper (with_cursor l w1))
    | None => (Thrown TypeError, w1)
    end.
Proof.
  unfold didDrop. run. rewrite refresh_spec, isAllowed_refreshed.
  assert (Hwr : bool_decide (is_Some (dataTransferWrapper (this (refreshed event w))))
                = bool_decide (is_Some (dataTransferWrapper (this w)))).
  { unfold refreshed. case_wrapper w. }
  assert (Ha : args (this (refreshed event w)) = args (this w)).
  { unfold refreshed. case_wrapper w. }
  destruct (isAllowed w); cbn [negb].
  - rewrite Hwr.
    destruct (bool_decide (is_Some (dataTransferWrapper (this w))));
      [|reflexivity].
    rewrite addFiles_spec. unfold assign_active, assign_dataTransferWrapper. run.
    assert (Hacc : accepted (refreshed event w) = accepted w).
    { unfold accepted, passes. by rewrite Ha. }
    rewrite call_spec, Hacc.
    unfold clear_wrapper, activate, record_calls. cbn.
    rewrite !this_enqueued, Ha. reflexivity.
  - rewrite assign_dropEffect_spec.
    destruct (event_dataTransfer event); reflexivity.
Qed.

(** *** The allow-policy *)

Lemma isAllowed_true (w : World) :
  isAllowed w = true <->
  environment (this w) = "test"
  \/ (exists wr, dataTransferWrapper (this w) = Some wr /\ wrapper_source wr = os)
  \/ arg_allowUploadsFromWebsites (args (this w)) = Some true.
Proof.
  unfold isAllowed. rewrite !orb_true_iff, bool_decide_eq_true. split.
  - intros [[Ht|Hos]|Ha].
    + by left.
    + right; left. destruct (dataTransferWrapper (this w)) as [wr|]; [|done].
      apply bool_decide_eq_true in Hos. eauto.
    + right; right. by destruct (arg_allowUploadsFromWebsites (args (this w))) as [[]|].
  - intros [Ht|[(wr & Hwr & Hos)|Ha]].
    + by left; left.
    + left; right. rewrite Hwr. by apply bool_decide_eq_true.
    + right. by rewrite Ha.
Qed.

Lemma isAllowed_false (w : World) :
  environment (this w) <> "test" ->
  (forall wr, dataTransferWrapper (this w) = Some wr -> wrapper_source wr <> os) ->
  arg_allowUploadsFromWebsites (args (this w)) <> Some true ->
  isAllowed w = false.
Proof.
  intros Ht Hos Ha. apply not_true_is_false. rewrite isAllowed_true.
  intros [?|[(wr & Hwr & ?)|?]]; [done| |done]. by eapply Hos.
Qed.

Lemma files_candidates (w : World) :
  files w = if multiple w then candidates w else take 1 (candidates w).
Proof. reflexivity. Qed.

(** *** The claims about the drop zone *)

(** C1, as amended.  A drag that is not from the operating system, outside
    the test environment and without [allowUploadsFromWebsites], is turned
    away silently: [didDragOver] leaves every [dropEffect] as it is, queues
    nothing and calls nothing; [didDrop] queues nothing, calls nothing and
    clears the stored wrapper, but it does write the configured cursor to the
    event's [dropEffect]. *)
Theorem rejected_drag_is_silent (event : FileUploadDragEvent) (l : loc) (w : World) :
  environment (this w) <> "test" ->
  (forall wr, dataTransferWrapper (this w) = Some wr -> wrapper_source wr <> os) ->
  arg_allowUploadsFromWebsites (args (this w)) <> Some true ->
  event_dataTransfer event = Some l ->
  let over := didDragOver event w in
  let drop := didDrop event w in
  (outcome over = Returned tt
   /\ heap (world_after over) = heap w
   /\ fileQueue (world_after over) = fileQueue w
   /\ invoked (world_after over) = invoked w
   /\ scheduled (world_after over) = scheduled w)
  /\ (outcome drop = Returned tt
      /\ heap (world_after drop) = alter (set_dropEffect (cursor w)) l (heap w)
      /\ fileQueue (world_after drop) = fileQueue w
      /\ invoked (world_after drop) = invoked w
      /\ scheduled (world_after drop) = scheduled w
      /\ dataTransferWrapper (this (world_after drop)) = None
      /\ active (this (world_after drop)) = active (this w)).
Proof.
  intros Ht Hos Ha Hl over drop.
  pose proof (isAllowed_false w Ht Hos Ha) as Hno.
  subst over drop. rewrite didDragOver_spec, didDrop_spec, Hno, Hl.
  unfold outcome, world_after, with_cursor, clear_wrapper, refreshed. cbn.
  case_wrapper w; repeat split; reflexivity.
Qed.

(** C2.  The policy permits exactly in the test environment, for a stored
    wrapper of source [os], or when [allowUploadsFromWebsites] is true, an
    argument that counts as false when it is not given; and a drag-enter on an
    inactive drop zone makes it active exactly when the policy permits the
    wrapper it has just stored, in which case it sets the event's
    [dropEffect] to the cursor, calls [onDragEnter] with the candidate files
    and that wrapper and ends in the spec's state [dragging], and otherwise
    does no more than store the wrapper. *)
Theorem policy_decides_drag_enter (event : FileUploadDragEvent) (l : loc) (w : World) :
  event_dataTransfer event = Some l ->
  active (this w) = false ->
  let r := didEnterDropzone event w in
  let w0 := entered event w in
  let w1 := activate true (with_cursor l w0) in
  (forall w' : World,
     isAllowed w' = true <->
     environment (this w') = "test"
     \/ (exists wr, dataTransferWrapper (this w') = Some wr /\ wrapper_source wr = os)
     \/ arg_allowUploadsFromWebsites (args (this w')) = Some true)
  /\ (forall w' : World,
        arg_allowUploadsFromWebsites (args (this w')) = None ->
        isAllowed w' = true <->
        environment (this w') = "test"
        \/ (exists wr, dataTransferWrapper (this w') = Some wr /\ wrapper_source wr = os))
  /\ outcome r = Returned tt
  /\ (active (this (world_after r)) = true <-> isAllowed w0 = true)
  /\ (isAllowed w0 = true ->
      world_after r =
        record_calls
          (called (arg_onDragEnter (args (this w)))
             (DragArgs (files w1) (Some (new_DataTransferWrapper (heap w) event))))
          w1
      /\ heap (world_after r) = alter (set_dropEffect (cursor w)) l (heap w)
      /\ dragging (world_after r))
  /\ (isAllowed w0 = false -> world_after r = w0).
Proof.
  intros Hl Hidle r w0 w1. split; [exact isAllowed_true|].
  split.
  { intros w' Hnone. rewrite isAllowed_true, Hnone.
    split; [intros [?|[?|?]]; [by left|by right|done]
           |intros [?|?]; [by left|by right; left]]. }
  subst r. rewrite didEnterDropzone_spec, Hl. fold w0.
  destruct (isAllowed w0) eqn:Hok; unfold outcome, world_after; cbn.
  - repeat split; try done.
  - repeat split; try done. intros H. subst w0. cbn in H. congruence.
Qed.

(** C7.  [didDragOver] calls no caller's function and leaves the queues, the
    run loop, [active] and every other field of the component as they are:
    it points the stored wrapper, if there is one, at the event's payload and,
    when the policy permits, writes the configured cursor to the
    [dropEffect] of that payload; no other [DataTransfer] object changes. *)
Theorem didDragOver_frame (event : FileUploadDragEvent) (w : World) :
  let w' := world_after (didDragOver event w) in
  invoked w' = invoked w
  /\ scheduled w' = scheduled w
  /\ fileQueue w' = fileQueue w
  /\ this w' =
     set_dataTransferWrapper
       (set_wrapper_dataTransfer (event_dataTransfer event)
          <$> dataTransferWrapper (this w)) (this w)
  /\ active (this w') = active (this w)
  /\ heap w' =
     match event_dataTransfer event with
     | Some l =>
         if isAllowed w then alter (set_dropEffect (cursor w)) l (heap w)
         else heap w
     | None => heap w
     end
  /\ (forall l' : loc, event_dataTransfer event <> Some l' -> heap w' !! l' = heap w !! l').
Proof.
  intros w'. subst w'. rewrite didDragOver_spec.
  assert (Hthis : this (refreshed event w) =
    set_dataTransferWrapper
      (set_wrapper_dataTransfer (event_dataTransfer event)
         <$> dataTransferWrapper (this w)) (this w)).
  { unfold refreshed. destruct w as [[] ? ? ? ?]; cbn.
    by destruct dataTransferWrapper0. }
  assert (Hrest : heap (refreshed event w) = heap w
                  /\ invoked (refreshed event w) = invoked w
                  /\ scheduled (refreshed event w) = scheduled w
                  /\ fileQueue (refreshed event w) = fileQueue w
                  /\ cursor (refreshed event w) = cursor w).
  { unfold refreshed, cursor. by case_wrapper w. }
  destruct Hrest as (Hh & Hi & Hs & Hq & Hc).
  destruct (isAllowed w), (event_dataTransfer event) as [l|] eqn:Hl;
    unfold world_after, with_cursor; cbn; rewrite ?Hthis, ?Hh, ?Hi, ?Hs, ?Hq, ?Hc;
    repeat split; try done.
  intros l' Hne. rewrite lookup_alter_ne; [done|congruence].
Qed.

Lemma refreshed_wrapper (event : FileUploadDragEvent) (w : World) :
  dataTransferWrapper (this (refreshed event w)) =
  set_wrapper_dataTransfer (event_dataTransfer event) <$> dataTransferWrapper (this w).
Proof. unfold refreshed. by case_wrapper w. Qed.

Lemma refreshed_frame (event : FileUploadDragEvent) (w : World) :
  heap (refreshed event w) = heap w
  /\ fileQueue (refreshed event w) = fileQueue w
  /\ invoked (refreshed event w) = invoked w
  /\ scheduled (refreshed event w) = scheduled w
  /\ args (this (refreshed event w)) = args (this w)
  /\ active (this (refreshed event w)) = active (this w)
  /\ isDestroyed (this (refreshed event w)) = isDestroyed (this w).
Proof. unfold refreshed. by case_wrapper w. Qed.

Lemma queued_refreshed (event : FileUploadDragEvent) (w : World) :
  queued (refreshed event w) = queued w
  /\ listening (refreshed event w) = listening w
  /\ target_queue (refreshed event w) = target_queue w.
Proof. unfold refreshed. by case_wrapper w. Qed.

(** What an allowed drop leaves behind. *)
Lemma didDrop_allowed (event : FileUploadDragEvent) (w : World) (wr : DataTransferWrapper) :
  isAllowed w = true ->
  dataTransferWrapper (this w) = Some wr ->
  let w1 := refreshed event w in
  let us := accepted w (files w1) in
  let r := didDrop event w in
  outcome r = Returned tt
  /\ world_after r =
     clear_wrapper
       (activate false
          (record_calls
             (called (arg_onDrop (args (this w)))
                (DropArgs us (Some (set_wrapper_dataTransfer
                                      (event_dataTransfer event) wr))))
             (enqueued us w1)))
  /\ queued (world_after r) = queued w ++ us
  /\ invoked (world_after r) =
     invoked w
     ++ flat_map (fun u => flat_map (sync_call u) (listening w)) us
     ++ called (arg_onDrop (args (this w)))
          (DropArgs us (Some (set_wrapper_dataTransfer
                                (event_dataTransfer event) wr))).
Proof.
  intros Hok Hwr w1 us r. subst r. rewrite didDrop_spec, Hok, Hwr.
  rewrite bool_decide_eq_true_2 by eauto.
  fold w1 us. unfold outcome, world_after. cbn [fst snd].
  assert (Hw1 : dataTransferWrapper (this w1) =
                Some (set_wrapper_dataTransfer (event_dataTransfer event) wr)).
  { subst w1. by rewrite refreshed_wrapper, Hwr. }
  rewrite Hw1. split; [done|]. split; [done|].
  destruct (queued_refreshed event w) as (Hq & Hls & Htq).
  destruct (refreshed_frame event w) as (_ & _ & Hi & _).
  split.
  - change (queued (enqueued us w1) = queued w ++ us).
    subst w1. by rewrite queued_enqueued, Hq.
  - cbn. rewrite invoked_enqueued. subst w1.
    by rewrite Hls, Hi, <- app_assoc.
Qed.

Lemma enqueued_set_this (c : FileDropzoneComponent) (us : list UploadFile) (w : World) :
  args c = args (this w) ->
  enqueued us (set_this c w) = set_this c (enqueued us w).
Proof.
  intros Hc. destruct us as [|u us]; [done|].
  unfold enqueued, queued, listening, target_queue, the_queue. cbn.
  by rewrite Hc.
Qed.

Lemma refreshed_classified (event : FileUploadDragEvent) (s : DragSource)
    (w : World) (wr : DataTransferWrapper) :
  dataTransferWrapper (this w) = Some wr ->
  refreshed event (classified s w) =
  set_this (set_dataTransferWrapper
              (Some (set_wrapper_dataTransfer (event_dataTransfer event)
                       (set_wrapper_source s wr))) (this w)) w.
Proof. intros Hwr. unfold refreshed, classified. rewrite Hwr. reflexivity. Qed.

(** C3.  With [allowUploadsFromWebsites] true, a drop whose stored wrapper is
    classified [web] is processed as the same drop classified [os], as long
    as the wrapper offers the same entries under both classifications: same
    completion, same accepted files, same queues, same component, same
    payloads, and the same calls, but for the classification that the
    wrapper handed to [onDrop] carries. *)
Theorem web_drop_as_os_drop (event : FileUploadDragEvent) (w : World)
    (wr : DataTransferWrapper) :
  arg_allowUploadsFromWebsites (args (this w)) = Some true ->
  dataTransferWrapper (this w) = Some wr ->
  files (refreshed event (classified web w)) = files (refreshed event (classified os w)) ->
  let from_web := didDrop event (classified web w) in
  let from_os := didDrop event (classified os w) in
  let us := accepted w (files (refreshed event (classified os w))) in
  let handed s :=
    called (arg_onDrop (args (this w)))
      (DropArgs us (Some (set_wrapper_dataTransfer (event_dataTransfer event)
                            (set_wrapper_source s wr)))) in
  outcome from_web = outcome from_os
  /\ this (world_after from_web) = this (world_after from_os)
  /\ heap (world_after from_web) = heap (world_after from_os)
  /\ fileQueue (world_after from_web) = fileQueue (world_after from_os)
  /\ scheduled (world_after from_web) = scheduled (world_after from_os)
  /\ queued (world_after from_web) = queued w ++ us
  /\ queued (world_after from_os) = queued w ++ us
  /\ (exists before,
        invoked (world_after from_web) = before ++ handed web
        /\ invoked (world_after from_os) = before ++ handed os).
Proof.
  intros Hallow Hwr Hfiles from_web from_os us handed.
  assert (Hdrop : forall s,
    didDrop event (classified s w) =
    (Returned tt,
     clear_wrapper
       (activate false
          (record_calls
             (called (arg_onDrop (args (this w)))
                (DropArgs (accepted w (files (refreshed event (classified s w))))
                   (Some (set_wrapper_dataTransfer (event_dataTransfer event)
                            (set_wrapper_source s wr)))))
             (set_this (set_dataTransferWrapper
                          (Some (set_wrapper_dataTransfer (event_dataTransfer event)
                                   (set_wrapper_source s wr))) (this w))
                (enqueued (accepted w (files (refreshed event (classified s w)))) w)))))).
  { intros s.
    assert (Hcl : dataTransferWrapper (this (classified s w))
                  = Some (set_wrapper_source s wr)).
    { unfold classified. by rewrite Hwr. }
    assert (Hargs : args (this (classified s w)) = args (this w)).
    { unfold classified. by rewrite Hwr. }
    assert (Hok : isAllowed (classified s w) = true).
    { apply isAllowed_true. right; right. by rewrite Hargs. }
    destruct (didDrop_allowed event (classified s w) _ Hok Hcl) as (Ho & Hw' & _).
    rewrite (surjective_pairing (didDrop event (classified s w))).
    unfold outcome, world_after in Ho, Hw'. rewrite Ho, Hw'.
    assert (Hacc : accepted (classified s w) = accepted w).
    { unfold accepted, passes. by rewrite Hargs. }
    rewrite Hacc, Hargs, (refreshed_classified event s w wr Hwr).
    by rewrite enqueued_set_this. }
  subst from_web from_os. rewrite (Hdrop web), (Hdrop os), Hfiles. fold us.
  unfold outcome, world_after, clear_wrapper, activate, record_calls. cbn.
  subst handed. cbn beta. clearbody us.
  assert (Hqueued : forall c : FileDropzoneComponent,
    args c = args (this w) ->
    queue_files (the_queue (target_queue (set_this c w)) (enqueued us w))
    = queued w ++ us).
  { intros c Hc. rewrite <- queued_enqueued. unfold queued, target_queue. cbn.
    by rewrite this_enqueued, Hc. }
  repeat split; try done.
  - exact (Hqueued _ eq_refl).
  - exact (Hqueued _ eq_refl).
  - by exists (invoked (enqueued us w)).
Qed.

(** C4, as amended.  In an allowed drop of the files [X; Y] on a component
    whose [multiple] argument is not false, with a filter that turns [X] away
    and lets [Y] through, the handler returns normally, the queue grows by
    [Y] alone, no call mentions [X], and [onDrop] is handed exactly [Y].
    Other queues are left alone. *)
Theorem filter_excludes_silently (event : FileUploadDragEvent) (w : World)
    (f : UploadFile -> bool) (X Y : File) :
  isAllowed w = true ->
  arg_multiple (args (this w)) <> Some false ->
  arg_filter (args (this w)) = Some f ->
  f (new_UploadFile X DragAndDrop) = false ->
  f (new_UploadFile Y DragAndDrop) = true ->
  candidates (refreshed event w) = [NativeFile X; NativeFile Y] ->
  let r := didDrop event w in
  let y := new_UploadFile Y DragAndDrop in
  outcome r = Returned tt
  /\ queued (world_after r) = queued w ++ [y]
  /\ invoked (world_after r) =
     invoked w
     ++ flat_map (sync_call y) (listening w)
     ++ called (arg_onDrop (args (this w)))
          (DropArgs [y] (dataTransferWrapper (this (refreshed event w))))
  /\ (forall q, q <> target_queue w ->
      fileQueue (world_after r) !! q = fileQueue w !! q).
Proof.
  intros Hok Hmany Hf HX HY Hcandidates r y.
  assert (Hfiles : files (refreshed event w) = [NativeFile X; NativeFile Y]).
  { rewrite files_candidates, Hcandidates. unfold multiple.
    destruct (refreshed_frame event w) as (_ & _ & _ & _ & -> & _).
    by destruct (arg_multiple (args (this w))) as [[]|]. }
  destruct (dataTransferWrapper (this w)) as [wr|] eqn:Hwr.
  2:{ exfalso. revert Hfiles. unfold files, refreshed. rewrite Hwr. cbn.
      rewrite Hwr. by destruct (multiple w). }
  destruct (didDrop_allowed event w wr Hok Hwr) as (Ho & Hw' & Hq & Hi).
  assert (Hus : accepted w (files (refreshed event w)) = [y]).
  { rewrite Hfiles. unfold accepted, passes. rewrite Hf. cbn. by rewrite HX, HY. }
  rewrite Hus in Hw', Hq, Hi. fold r in Ho, Hw', Hq, Hi.
  split; [done|]. split; [done|]. split.
  - rewrite Hi, refreshed_wrapper, Hwr. cbn. by rewrite app_nil_r.
  - intros q Hne. rewrite Hw'.
    change (fileQueue (enqueued [y] (refreshed event w)) !! q = fileQueue w !! q).
    destruct (queued_refreshed event w) as (_ & _ & Htq).
    destruct (refreshed_frame event w) as (_ & Hfq & _).
    rewrite other_queues_enqueued; [by rewrite Hfq | by rewrite Htq].
Qed.


(** What an allowed drag-leave leaves behind. *)
Lemma didLeaveDropzone_allowed (event : FileUploadDragEvent) (w : World)
    (wr : DataTransferWrapper) :
  isAllowed w = true ->
  dataTransferWrapper (this w) = Some wr ->
  let r := didLeaveDropzone event w in
  let w1 :=
    match event_dataTransfer event with
    | Some l => with_cursor l (refreshed event w)
    | None => refreshed event w
    end in
  outcome r = Returned tt
  /\ invoked (world_after r) =
     invoked w
     ++ called (arg_onDragLeave (args (this w)))
          (DragArgs (files w1)
             (Some (set_wrapper_dataTransfer (event_dataTransfer event) wr)))
  /\ dataTransferWrapper (this (world_after r)) = None
  /\ active (this (world_after r)) =
     if isDestroyed (this w) then active (this w) else false.
Proof.
  intros Hok Hwr r w1.
  subst r. rewrite didLeaveDropzone_spec, Hok, Hwr.
  rewrite bool_decide_eq_true_2 by eauto. cbn [andb]. fold w1.
  assert (Hw1 : dataTransferWrapper (this w1)
                = Some (set_wrapper_dataTransfer (event_dataTransfer event) wr)
                /\ invoked w1 = invoked w /\ active (this w1) = active (this w)).
  { subst w1. unfold refreshed. rewrite Hwr.
    by destruct (event_dataTransfer event). }
  destruct Hw1 as (Hwr1 & Hi1 & Ha1).
  unfold outcome, world_after. cbn [fst snd].
  destruct (isDestroyed (this w)) eqn:Hd; cbn; rewrite ?Hwr1, ?Hi1, ?Ha1;
    repeat split; done.
Qed.

(** C8.  An allowed drag-leave calls [onDragLeave] with the candidate files
    and the wrapper, clears the stored wrapper and sets [active] to false,
    unless the component is destroyed: then [active] keeps its value.  Whether
    allowed or not, [didLeaveDropzone] never changes [active] on a destroyed
    component. *)
Theorem drag_leave_respects_teardown (event : FileUploadDragEvent) (w : World)
    (wr : DataTransferWrapper) :
  isAllowed w = true ->
  dataTransferWrapper (this w) = Some wr ->
  let r := didLeaveDropzone event w in
  let w1 :=
    match event_dataTransfer event with
    | Some l => with_cursor l (refreshed event w)
    | None => refreshed event w
    end in
  outcome r = Returned tt
  /\ invoked (world_after r) =
     invoked w
     ++ called (arg_onDragLeave (args (this w)))
          (DragArgs (files w1)
             (Some (set_wrapper_dataTransfer (event_dataTransfer event) wr)))
  /\ dataTransferWrapper (this (world_after r)) = None
  /\ (isDestroyed (this w) = false -> active (this (world_after r)) = false)
  /\ (isDestroyed (this w) = true -> active (this (world_after r)) = active (this w))
  /\ (forall w0 : World,
        isDestroyed (this w0) = true ->
        active (this (world_after (didLeaveDropzone event w0))) = active (this w0)).
Proof.
  intros Hok Hwr r w1.
  assert (Hany : forall w0 : World,
    isDestroyed (this w0) = true ->
    active (this (world_after (didLeaveDropzone event w0))) = active (this w0)).
  { intros w0 Hd. rewrite didLeaveDropzone_spec, Hd.
    destruct (refreshed_frame event w0) as (_ & _ & _ & _ & _ & Hact & _).
    destruct (bool_decide _ && isAllowed w0); unfold world_after; cbn; [|done].
    by destruct (event_dataTransfer event). }
  destruct (didLeaveDropzone_allowed event w wr Hok Hwr) as (Ho & Hi & Hw' & Ha).
  fold r w1 in Ho, Hi, Hw', Ha.
  repeat split; try done.
  - intros Hd. by rewrite Ha, Hd.
  - intros Hd. by rewrite Ha, Hd.
Qed.

Lemma files_single (w : World) :
  arg_multiple (args (this w)) = Some false ->
  files w = take 1 (candidates w).
Proof. intros Hm. rewrite files_candidates. unfold multiple. by rewrite Hm. Qed.

(** C5, as amended.  With [multiple] false only the first candidate is ever
    looked at: [files] is the first candidate alone, so that [onDragEnter],
    [onDragLeave] and the drop see no other; an allowed drop queues that first
    candidate if it is a native [File] that passes the filter, and then
    exactly one file is queued, and queues nothing otherwise. *)
Theorem single_drop_considers_first (event : FileUploadDragEvent) (w : World)
    (wr : DataTransferWrapper) (c : Entry) (rest : list Entry) :
  isAllowed w = true ->
  arg_multiple (args (this w)) = Some false ->
  dataTransferWrapper (this w) = Some wr ->
  candidates (refreshed event w) = c :: rest ->
  let r := didDrop event w in
  let wr1 := set_wrapper_dataTransfer (event_dataTransfer event) wr in
  let us :=
    match convert c with
    | Some u => if passes w u then [u] else []
    | None => []
    end in
  files (refreshed event w) = [c]
  /\ outcome r = Returned tt
  /\ queued (world_after r) = queued w ++ us
  /\ length us <= 1
  /\ (forall X : File,
        c = NativeFile X ->
        passes w (new_UploadFile X DragAndDrop) = true ->
        queued (world_after r) = queued w ++ [new_UploadFile X DragAndDrop])
  /\ invoked (world_after r) =
     invoked w
     ++ flat_map (fun u => flat_map (sync_call u) (listening w)) us
     ++ called (arg_onDrop (args (this w))) (DropArgs us (Some wr1))
  /\ (forall w' : World,
        arg_multiple (args (this w')) = Some false ->
        files w' = take 1 (candidates w'))
  /\ (forall (enter : FileUploadDragEvent) (l : loc),
        event_dataTransfer enter = Some l ->
        isAllowed (entered enter w) = true ->
        invoked (world_after (didEnterDropzone enter w)) =
        invoked w
        ++ called (arg_onDragEnter (args (this w)))
             (DragArgs (take 1 (candidates (with_cursor l (entered enter w))))
                (Some (new_DataTransferWrapper (heap w) enter))))
  /\ (let w1 :=
        match event_dataTransfer event with
        | Some l => with_cursor l (refreshed event w)
        | None => refreshed event w
        end in
      invoked (world_after (didLeaveDropzone event w)) =
      invoked w
      ++ called (arg_onDragLeave (args (this w)))
           (DragArgs (take 1 (candidates w1)) (Some wr1))).
Proof.
  intros Hok Hm Hwr Hc r wr1 us.
  destruct (refreshed_frame event w) as (Hh & _ & Hinv & _ & Ha & _).
  assert (Hfiles : files (refreshed event w) = [c]).
  { rewrite files_single by (by rewrite Ha). by rewrite Hc. }
  destruct (didDrop_allowed event w wr Hok Hwr) as (Ho & _ & Hq & Hi).
  fold r wr1 in Ho, Hq, Hi. rewrite Hfiles in Hq, Hi.
  assert (Hus : accepted w [c] = us).
  { subst us. unfold accepted. cbn. destruct (convert c) as [u|]; [|done].
    cbn. by destruct (passes w u). }
  rewrite Hus in Hq, Hi.
  split; [done|]. split; [done|]. split; [done|]. split.
  { subst us. destruct (convert c) as [u|]; [|cbn; lia].
    destruct (passes w u); cbn; lia. }
  split.
  { intros X -> HX. rewrite Hq. subst us. cbn. by rewrite HX. }
  split; [done|]. split; [exact files_single|]. split.
  - intros enter l Hl Hen. rewrite didEnterDropzone_spec, Hen, Hl.
    unfold world_after. cbn [snd].
    rewrite files_single by done. reflexivity.
  - cbn zeta. destruct (didLeaveDropzone_allowed event w wr Hok Hwr)
      as (_ & Hleave & _).
    rewrite Hleave. rewrite files_single; [done|].
    destruct (event_dataTransfer event); [|by rewrite Ha]. cbn. by rewrite Ha.
Qed.

(** C10.  A drag-enter that the policy turns away still stores the wrapper it
    built, and [active] stays false: the component is in neither of the
    spec's two states.  Later handlers read the policy off that stored
    wrapper, whatever their own event carries: [didDragOver] and
    [didLeaveDropzone] do no more than refresh the wrapper, which stays in
    place, and [didDrop] takes the rejecting branch. *)
Theorem rejected_enter_keeps_wrapper (event : FileUploadDragEvent) (w : World) :
  isAllowed (entered event w) = false ->
  active (this w) = false ->
  let r := didEnterDropzone event w in
  let w' := world_after r in
  let stored := new_DataTransferWrapper (heap w) event in
  outcome r = Returned tt
  /\ dataTransferWrapper (this w') = Some stored
  /\ active (this w') = false
  /\ ~ idle w'
  /\ ~ dragging w'
  /\ isAllowed w' =
     bool_decide (environment (this w) = "test")
     || bool_decide (wrapper_source stored = os)
     || default false (arg_allowUploadsFromWebsites (args (this w)))
  /\ (forall later : FileUploadDragEvent,
        isAllowed (refreshed later w') = false
        /\ dataTransferWrapper (this (refreshed later w')) =
           Some (set_wrapper_dataTransfer (event_dataTransfer later) stored)
        /\ didDragOver later w' = (Returned tt, refreshed later w')
        /\ didLeaveDropzone later w' = (Returned tt, refreshed later w')
        /\ didDrop later w' =
           match event_dataTransfer later with
           | Some l => (Returned tt, clear_wrapper (with_cursor l (refreshed later w')))
           | None => (Thrown TypeError, refreshed later w')
           end).
Proof.
  intros Hno Hact r w' stored.
  subst w' r. rewrite didEnterDropzone_spec, Hno.
  unfold outcome, world_after. cbn [fst snd].
  split; [done|]. split; [done|]. split; [done|].
  split; [by intros [_ ?]|]. split; [intros [? _]; cbn in *; congruence|].
  split; [done|]. intros later.
  split; [by rewrite isAllowed_refreshed|].
  split; [done|].
  rewrite didDragOver_spec, didLeaveDropzone_spec, didDrop_spec, Hno.
  by rewrite andb_false_r.
Qed.

(** *** Further properties of [addFiles] *)

Lemma accepted_app (w : World) (fs1 fs2 : list Entry) :
  accepted w (fs1 ++ fs2) = accepted w fs1 ++ accepted w fs2.
Proof. unfold accepted. by rewrite omap_app, List.filter_app. Qed.

Lemma accepted_items (w : World) (fs : list Entry) :
  Forall (fun e => exists i, e = Item i) fs -> accepted w fs = [].
Proof.
  induction 1 as [|e fs [i ->] _ IH]; [done|].
  unfold accepted in *. cbn. exact IH.
Qed.

Lemma filter_sublist {A} (f : A -> bool) (l : list A) :
  List.filter f l `sublist_of` l.
Proof.
  induction l as [|x l IH]; [done|]. cbn.
  destruct (f x); by constructor.
Qed.

Lemma accepted_tagged (w : World) (fs : list Entry) :
  Forall (fun u => upload_source u = DragAndDrop) (accepted w fs).
Proof.
  apply Forall_forall. intros u Hu.
  apply list_elem_of_In, filter_In in Hu as [Hu _].
  apply list_elem_of_In, list_elem_of_omap in Hu as (e & _ & He).
  destruct e; cbn in He; by simplify_eq.
Qed.

(** X1.  [addFiles] passes over everything that is not a native [File]: of a
    list of drag items it adds none, returns the empty list and leaves the
    world as it is, without even asking the service for the queue.  An allowed
    drop of such a list still calls [onDrop], with no files, and resets the
    component. *)
Theorem items_are_never_queued (event : FileUploadDragEvent) (w : World)
    (wr : DataTransferWrapper) (fs : list Entry) :
  Forall (fun e => exists i, e = Item i) fs ->
  isAllowed w = true ->
  dataTransferWrapper (this w) = Some wr ->
  files (refreshed event w) = fs ->
  addFiles fs w = (Returned [], w)
  /\ didDrop event w =
     (Returned tt,
      clear_wrapper
        (activate false
           (record_calls
              (called (arg_onDrop (args (this w)))
                 (DropArgs [] (Some (set_wrapper_dataTransfer
                                       (event_dataTransfer event) wr))))
              (refreshed event w))))
  /\ fileQueue (world_after (didDrop event w)) = fileQueue w.
Proof.
  intros Hitems Hok Hwr Hfs.
  assert (Hnone : accepted w fs = []) by by apply accepted_items.
  split; [by rewrite addFiles_spec, Hnone|].
  destruct (didDrop_allowed event w wr Hok Hwr) as (Ho & Hw' & _).
  rewrite Hfs, Hnone in Hw'. cbn [enqueued] in Hw'.
  rewrite (surjective_pairing (didDrop event w)).
  unfold outcome, world_after in *. rewrite Ho, Hw'. split; [done|].
  cbn. by destruct (refreshed_frame event w) as (_ & -> & _).
Qed.

(** X2.  [addFiles] of two lists, one after the other, is [addFiles] of the
    two together: the same world, and the two results joined. *)
Theorem addFiles_app (fs1 fs2 : list Entry) (w : World) :
  let r1 := addFiles fs1 w in
  let r2 := addFiles fs2 (world_after r1) in
  exists a1 a2,
    outcome r1 = Returned a1
    /\ outcome r2 = Returned a2
    /\ addFiles (fs1 ++ fs2) w = (Returned (a1 ++ a2), world_after r2).
Proof.
  intros r1 r2. subst r1 r2. rewrite !addFiles_spec.
  unfold outcome, world_after. cbn [fst snd].
  eexists _, _. split; [done|]. split; [done|].
  by rewrite accepted_enqueued, enqueued_app, accepted_app.
Qed.

(** X3.  [addFiles] returns normally.  What it returns is what it has
    appended to the component's queue, behind the files that were there:
    exactly the dropped native files that pass the filter, none left out, in
    the order they were dropped and each tagged [DragAndDrop].  It leaves the
    component, the payloads, the listeners of the queue and every other queue
    as they are. *)
Theorem addFiles_frame (fs : list Entry) (w : World) :
  let r := addFiles fs w in
  let added := List.filter (passes w) (omap convert fs) in
  outcome r = Returned added
  /\ queued (world_after r) = queued w ++ added
  /\ (forall file : File,
        In (NativeFile file) fs ->
        passes w (new_UploadFile file DragAndDrop) = true ->
        In (new_UploadFile file DragAndDrop) added)
  /\ added `sublist_of` omap convert fs
  /\ Forall (fun u => passes w u = true /\ upload_source u = DragAndDrop) added
  /\ length added <= length fs
  /\ this (world_after r) = this w
  /\ heap (world_after r) = heap w
  /\ listening (world_after r) = listening w
  /\ (forall q, q <> target_queue w ->
      fileQueue (world_after r) !! q = fileQueue w !! q).
Proof.
  intros r added. subst r. rewrite addFiles_spec. unfold outcome, world_after.
  cbn [fst snd]. change (accepted w fs) with added.
  split; [done|]. split; [apply queued_enqueued|]. split.
  { intros file Hin Hpass. subst added. apply filter_In. split; [|done].
    apply list_elem_of_In, list_elem_of_omap.
    exists (NativeFile file). split; [by apply list_elem_of_In|done]. }
  split; [apply filter_sublist|]. split.
  { apply Forall_forall. intros u Hu. split.
    - by apply list_elem_of_In, filter_In in Hu as [_ ?].
    - revert u Hu. apply Forall_forall, accepted_tagged. }
  split.
  { etrans; [apply sublist_length, filter_sublist|].
    clear. induction fs as [|[f|i] fs IH]; cbn in *; lia. }
  split; [apply this_enqueued|]. split; [apply heap_enqueued|].
  split; [apply listening_enqueued|].
  intros q Hq. by apply other_queues_enqueued.
Qed.

(** *** When the handlers throw *)

(** X4.  [didLeaveDropzone] never throws: it guards its write to
    [event.dataTransfer].  The other three handlers write without a guard and
    throw, a [TypeError], exactly when they reach that write on an event
    without a [dataTransfer]: [didEnterDropzone] and [didDragOver] when the
    policy permits, [didDrop] when it rejects.  A handler that throws has by
    then stored or refreshed the wrapper and done nothing else; so the
    rejected drop that throws does not clear the wrapper. *)
Theorem handlers_throw_only_without_payload (event : FileUploadDragEvent) (w : World) :
  outcome (didLeaveDropzone event w) = Returned tt
  /\ (outcome (didEnterDropzone event w) = Thrown TypeError <->
      isAllowed (entered event w) = true /\ event_dataTransfer event = None)
  /\ (outcome (didDragOver event w) = Thrown TypeError <->
      isAllowed w = true /\ event_dataTransfer event = None)
  /\ (outcome (didDrop event w) = Thrown TypeError <->
      isAllowed w = false /\ event_dataTransfer event = None)
  /\ (outcome (didEnterDropzone event w) = Thrown TypeError ->
      world_after (didEnterDropzone event w) = entered event w)
  /\ (outcome (didDragOver event w) = Thrown TypeError ->
      world_after (didDragOver event w) = refreshed event w)
  /\ (outcome (didDrop event w) = Thrown TypeError ->
      world_after (didDrop event w) = refreshed event w
      /\ dataTransferWrapper (this (world_after (didDrop event w))) =
         set_wrapper_dataTransfer None <$> dataTransferWrapper (this w)).
Proof.
  rewrite didLeaveDropzone_spec, didEnterDropzone_spec, didDragOver_spec,
    didDrop_spec.
  unfold outcome, world_after.
  destruct (isAllowed (entered event w)), (isAllowed w),
    (event_dataTransfer event) as [l|] eqn:Hl,
    (bool_decide (is_Some (dataTransferWrapper (this w))));
    cbn; rewrite ?refreshed_wrapper, ?Hl; repeat split; try done;
    try (by intros [? ?]).
Qed.

(** *** Round trips of the state machine *)

(** X5.  A permitted drag-enter followed by a drag-leave brings a live
    component back to the idle state: [active] false and no wrapper, whatever
    the state was before.  In between it has called [onDragEnter] and then
    [onDragLeave], each with the wrapper; the queues and the run loop are as
    they were. *)
Theorem enter_then_leave_is_idle (enter leave : FileUploadDragEvent) (l : loc)
    (w : World) :
  event_dataTransfer enter = Some l ->
  isDestroyed (this w) = false ->
  isAllowed (entered enter w) = true ->
  let stored := new_DataTransferWrapper (heap w) enter in
  let w1 := world_after (didEnterDropzone enter w) in
  let w2 := world_after (didLeaveDropzone leave w1) in
  dragging w1
  /\ idle w2
  /\ fileQueue w2 = fileQueue w
  /\ scheduled w2 = scheduled w
  /\ exists fs1 fs2,
       invoked w2 =
       invoked w
       ++ called (arg_onDragEnter (args (this w))) (DragArgs fs1 (Some stored))
       ++ called (arg_onDragLeave (args (this w)))
            (DragArgs fs2 (Some (set_wrapper_dataTransfer
                                   (event_dataTransfer leave) stored))).
Proof.
  intros Hl Hlive Hok stored w1 w2.
  assert (Hw1 : w1 =
    record_calls
      (called (arg_onDragEnter (args (this w)))
         (DragArgs (files (activate true (with_cursor l (entered enter w))))
            (Some stored)))
      (activate true (with_cursor l (entered enter w)))).
  { subst w1. by rewrite didEnterDropzone_spec, Hok, Hl. }
  assert (Hok1 : isAllowed w1 = true) by by rewrite Hw1.
  assert (Hwr1 : dataTransferWrapper (this w1) = Some stored) by by rewrite Hw1.
  destruct (didLeaveDropzone_allowed leave w1 stored Hok1 Hwr1)
    as (_ & Hinv & Hnone & Hact).
  fold w2 in Hinv, Hnone, Hact.
  assert (Hd1 : isDestroyed (this w1) = false) by by rewrite Hw1.
  rewrite Hd1 in Hact.
  split; [by rewrite Hw1; split; [|eauto]|]. split; [done|].
  assert (Hrest : fileQueue w2 = fileQueue w1 /\ scheduled w2 = scheduled w1).
  { subst w2. rewrite didLeaveDropzone_spec, Hok1, Hwr1, Hd1.
    rewrite bool_decide_eq_true_2 by eauto. unfold world_after. cbn.
    destruct (refreshed_frame leave w1) as (_ & Hq & _ & Hs & _).
    by destruct (event_dataTransfer leave). }
  destruct Hrest as [-> ->].
  split; [by rewrite Hw1|]. split; [by rewrite Hw1|].
  eexists _, _. rewrite Hinv.
  assert (Ha1 : args (this w1) = args (this w)) by by rewrite Hw1.
  rewrite Ha1. rewrite Hw1 at 1. cbn [record_calls set_invoked invoked].
  by rewrite <- app_assoc.
Qed.

(** *** What no sequence of handler calls changes *)

Lemma preserved_refl (w : World) : preserved w w.
Proof.
  repeat split; try done. exists []. by rewrite app_nil_r.
Qed.

Lemma preserved_trans (w1 w2 w3 : World) :
  preserved w1 w2 -> preserved w2 w3 -> preserved w1 w3.
Proof.
  intros (Ha & He & Hg & Hd & (a1 & Hq1 & Ht1) & Hl & Ho & Hh)
         (Ha' & He' & Hg' & Hd' & (a2 & Hq2 & Ht2) & Hl' & Ho' & Hh').
  assert (Htq : target_queue w2 = target_queue w1).
  { unfold target_queue. by rewrite Ha. }
  split; [congruence|]. split; [congruence|]. split; [congruence|].
  split; [congruence|]. split.
  { exists (a1 ++ a2). split; [by rewrite Hq2, Hq1, app_assoc|].
    by apply Forall_app. }
  split; [congruence|]. split.
  { intros q Hq. rewrite Ho' by by rewrite Htq. by apply Ho. }
  intros l. by rewrite Hh', Hh.
Qed.

(** Writes to the two tracked fields and to the record of calls. *)
Lemma preserved_set_this (c : FileDropzoneComponent) (w : World) :
  args c = args (this w) ->
  environment c = environment (this w) ->
  guid c = guid (this w) ->
  isDestroyed c = isDestroyed (this w) ->
  preserved w (set_this c w).
Proof.
  intros Ha He Hg Hd. unfold preserved, queued, listening, target_queue. cbn.
  rewrite Ha. repeat split; try done. exists []. by rewrite app_nil_r.
Qed.

Lemma preserved_refreshed (event : FileUploadDragEvent) (w : World) :
  preserved w (refreshed event w).
Proof.
  unfold refreshed. destruct (dataTransferWrapper (this w));
    [by apply preserved_set_this | apply preserved_refl].
Qed.

Lemma preserved_entered (event : FileUploadDragEvent) (w : World) :
  preserved w (entered event w).
Proof. by apply preserved_set_this. Qed.

Lemma preserved_activate (b : bool) (w : World) : preserved w (activate b w).
Proof. by apply preserved_set_this. Qed.

Lemma preserved_clear_wrapper (w : World) : preserved w (clear_wrapper w).
Proof. by apply preserved_set_this. Qed.

Lemma preserved_record_calls (cs : list Invocation) (w : World) :
  preserved w (record_calls cs w).
Proof.
  unfold preserved, queued, listening, target_queue. cbn.
  repeat split; try done. exists []. by rewrite app_nil_r.
Qed.

Lemma preserved_with_cursor (l : loc) (w : World) : preserved w (with_cursor l w).
Proof.
  unfold preserved, queued, listening, target_queue. cbn.
  repeat split; try done.
  - exists []. by rewrite app_nil_r.
  - intros l'. rewrite lookup_alter. case_decide; [subst|done].
    by destruct (heap w !! l').
Qed.

Lemma preserved_enqueued (fs : list Entry) (w0 w : World) :
  preserved w (enqueued (accepted w0 fs) w).
Proof.
  unfold preserved.
  rewrite this_enqueued, heap_enqueued, listening_enqueued, queued_enqueued.
  repeat split; try done.
  - exists (accepted w0 fs). split; [done|apply accepted_tagged].
  - intros q Hq. by apply other_queues_enqueued.
Qed.

Ltac preserve :=
  repeat lazymatch goal with
  | |- preserved ?w ?w => apply preserved_refl
  | |- preserved _ (clear_wrapper _) =>
      eapply preserved_trans; [|apply preserved_clear_wrapper]
  | |- preserved _ (activate _ _) =>
      eapply preserved_trans; [|apply preserved_activate]
  | |- preserved _ (record_calls _ _) =>
      eapply preserved_trans; [|apply preserved_record_calls]
  | |- preserved _ (with_cursor _ _) =>
      eapply preserved_trans; [|apply preserved_with_cursor]
  | |- preserved _ (enqueued _ _) =>
      eapply preserved_trans; [|apply preserved_enqueued]
  | |- preserved _ (refreshed _ _) =>
      eapply preserved_trans; [|apply preserved_refreshed]
  | |- preserved _ (entered _ _) =>
      eapply preserved_trans; [|apply preserved_entered]
  end.

Lemma preserved_after (a : Action) (w : World) : preserved w (after a w).
Proof.
  unfold after, world_after. destruct a as [event|event|event|event]; cbn [perform].
  - rewrite didEnterDropzone_spec.
    destruct (isAllowed (entered event w)), (event_dataTransfer event);
      cbv beta zeta; cbn [snd]; preserve.
  - rewrite didLeaveDropzone_spec.
    destruct (bool_decide _ && isAllowed w), (event_dataTransfer event),
      (isDestroyed (this w)); cbv beta zeta; cbn [snd]; preserve.
  - rewrite didDragOver_spec.
    destruct (isAllowed w), (event_dataTransfer event);
      cbv beta zeta; cbn [snd]; preserve.
  - rewrite didDrop_spec.
    destruct (isAllowed w), (event_dataTransfer event),
      (bool_decide (is_Some (dataTransferWrapper (this w))));
      cbv beta zeta; cbn [snd]; preserve.
Qed.

Lemma preserved_after_all (actions : list Action) (w : World) :
  preserved w (after_all actions w).
Proof.
  revert w. induction actions as [|a actions IH]; intros w.
  - apply preserved_refl.
  - cbn. eapply preserved_trans; [apply preserved_after | apply IH].
Qed.

(** X6.  Whatever handlers are called, in whatever order and with whatever
    events, the component's queue only grows: the files that were queued stay
    where they are, and every file added behind them is tagged
    [DragAndDrop].  The listeners of the queue and all other queues of the
    service are left alone. *)
Theorem handlers_only_append_to_the_queue (actions : list Action) (w : World) :
  let w' := after_all actions w in
  exists added,
    queued w' = queued w ++ added
    /\ Forall (fun u => upload_source u = DragAndDrop) added
    /\ listening w' = listening w
    /\ target_queue w' = target_queue w
    /\ (forall q, q <> target_queue w -> fileQueue w' !! q = fileQueue w !! q).
Proof.
  intros w'. destruct (preserved_after_all actions w)
    as (Ha & _ & _ & _ & (added & Hq & Ht) & Hl & Ho & _).
  exists added. repeat split; try done.
  subst w'. unfold target_queue. by rewrite Ha.
Qed.

(** X7.  The handlers write to payloads nothing but [dropEffect]: after any
    sequence of handler calls every [DataTransfer] object is there as before,
    with the files and the items it had.  Nor do they touch the component's
    arguments, its environment or its [isDestroyed] flag. *)
Theorem handlers_keep_payload_contents (actions : list Action) (w : World) (l : loc) :
  let w' := after_all actions w in
  (dt_files <$> heap w' !! l) = (dt_files <$> heap w !! l)
  /\ (dt_items <$> heap w' !! l) = (dt_items <$> heap w !! l)
  /\ (is_Some (heap w' !! l) <-> is_Some (heap w !! l))
  /\ args (this w') = args (this w)
  /\ environment (this w') = environment (this w)
  /\ isDestroyed (this w') = isDestroyed (this w).
Proof.
  intros w'. destruct (preserved_after_all actions w)
    as (Ha & He & _ & Hd & _ & _ & _ & Hh).
  specialize (Hh l). fold w' in Hh. unfold contents in Hh.
  split; [|split; [|split; [|done]]].
  - destruct (heap w' !! l), (heap w !! l); cbn in *; congruence.
  - destruct (heap w' !! l), (heap w !! l); cbn in *; congruence.
  - destruct (heap w' !! l), (heap w !! l); cbn in *; try done;
      split; eauto.
Qed.

(** *** The two-state machine *)

Lemma permissive_isAllowed (w : World) : permissive w -> isAllowed w = true.
Proof. intros [?|?]; apply isAllowed_true; eauto. Qed.

Lemma two_states_after (a : Action) (w : World) :
  permissive w ->
  isDestroyed (this w) = false ->
  (forall e, a = Enter e -> is_Some (event_dataTransfer e)) ->
  idle w \/ dragging w ->
  idle (after a w) \/ dragging (after a w).
Proof.
  intros Hp Hlive Hpay Hw. unfold after, world_after.
  destruct a as [event|event|event|event]; cbn [perform].
  - destruct (Hpay event eq_refl) as [l Hl].
    rewrite didEnterDropzone_spec, permissive_isAllowed, Hl by done.
    right. split; cbn; eauto.
  - rewrite didLeaveDropzone_spec, permissive_isAllowed, Hlive by done.
    unfold refreshed.
    destruct (dataTransferWrapper (this w)) as [wr|] eqn:Hwr.
    + rewrite bool_decide_eq_true_2 by eauto. left. by split.
    + rewrite bool_decide_eq_false_2 by (by intros [? ?]). done.
  - rewrite didDragOver_spec, permissive_isAllowed by done.
    assert (Hsame : active (this (refreshed event w)) = active (this w)
                    /\ (is_Some (dataTransferWrapper (this (refreshed event w)))
                        <-> is_Some (dataTransferWrapper (this w)))
                    /\ (dataTransferWrapper (this (refreshed event w)) = None
                        <-> dataTransferWrapper (this w) = None)).
    { rewrite refreshed_wrapper.
      destruct (refreshed_frame event w) as (_ & _ & _ & _ & _ & -> & _).
      destruct (dataTransferWrapper (this w)); cbn; repeat split; eauto; done. }
    destruct Hsame as (Ha & Hs & Hn).
    unfold idle, dragging in *.
    destruct (event_dataTransfer event); cbn; rewrite Ha, Hs, Hn; done.
  - rewrite didDrop_spec, permissive_isAllowed by done. cbv zeta.
    unfold refreshed.
    destruct (dataTransferWrapper (this w)) as [wr|] eqn:Hwr.
    + rewrite bool_decide_eq_true_2 by eauto. left. by split.
    + rewrite bool_decide_eq_false_2 by (by intros [? ?]). done.
Qed.

(** X8.  Where the policy permits every drag (the test environment, or
    [allowUploadsFromWebsites]), a live component that starts idle or
    dragging is idle or dragging after every sequence of handler calls whose
    drag-enter events carry a payload: [active] is true exactly while a
    wrapper is stored. *)
Theorem permissive_policy_keeps_two_states (actions : list Action) (w : World) :
  permissive w ->
  isDestroyed (this w) = false ->
  Forall (fun a => forall e, a = Enter e -> is_Some (event_dataTransfer e)) actions ->
  idle w \/ dragging w ->
  let w' := after_all actions w in
  (idle w' \/ dragging w')
  /\ (active (this w') = true <-> is_Some (dataTransferWrapper (this w'))).
Proof.
  intros Hp Hlive Hpay Hw w'.
  assert (Hstates : idle w' \/ dragging w').
  { subst w'. revert w Hp Hlive Hw.
    induction Hpay as [|a actions Ha _ IH]; intros w Hp Hlive Hw; [done|].
    cbn. destruct (preserved_after a w) as (Hargs & Henv & _ & Hd & _).
    apply IH.
    - unfold permissive. by rewrite Hargs, Henv.
    - by rewrite Hd.
    - by apply two_states_after. }
  split; [done|].
  destruct Hstates as [[Ha Hn]|[Ha Hs]]; rewrite Ha.
  - rewrite Hn. split; [done|by intros [? ?]].
  - done.
Qed.

(** X9.  A rejected drop does not reset [active].  If it was true (a
    permitted drag-enter followed by a drag-enter that the policy turns away
    leaves it so), the component is from then on active with no wrapper
    stored, in neither state of the machine, and no drag-leave, drag-over or
    drop brings it back: only another drag-enter can. *)
Theorem rejected_drop_leaves_active_set (event : FileUploadDragEvent) (l : loc)
    (w : World) (actions : list Action) :
  active (this w) = true ->
  isAllowed w = false ->
  event_dataTransfer event = Some l ->
  Forall (fun a => forall e, a <> Enter e) actions ->
  let w1 := world_after (didDrop event w) in
  let w2 := after_all actions w1 in
  (active (this w1) = true /\ dataTransferWrapper (this w1) = None)
  /\ (active (this w2) = true /\ dataTransferWrapper (this w2) = None)
  /\ ~ idle w2
  /\ ~ dragging w2.
Proof.
  intros Hact Hno Hl Hnoenter w1 w2.
  assert (Hstuck : forall v : World,
    active (this v) = true -> dataTransferWrapper (this v) = None ->
    isAllowed v = false ->
    forall a, (forall e, a <> Enter e) ->
    active (this (after a v)) = true
    /\ dataTransferWrapper (this (after a v)) = None
    /\ isAllowed (after a v) = false).
  { intros v Ha Hn Hv a Hne. unfold after, world_after.
    assert (Hr : forall e, refreshed e v = v).
    { intros e. unfold refreshed. by rewrite Hn. }
    destruct a as [e|e|e|e]; cbn [perform].
    - by destruct (Hne e).
    - rewrite didLeaveDropzone_spec, Hv, Hn, andb_false_r. cbn. by rewrite Hr.
    - rewrite didDragOver_spec, Hv. cbn. by rewrite Hr.
    - rewrite didDrop_spec, Hv. cbv zeta. rewrite Hr.
      destruct (event_dataTransfer e); cbn; [|done].
      repeat split; try done.
      revert Hv. unfold isAllowed. cbn. by rewrite Hn. }
  assert (H1 : active (this w1) = true /\ dataTransferWrapper (this w1) = None
               /\ isAllowed w1 = false).
  { subst w1. rewrite didDrop_spec, Hno, Hl. unfold world_after. cbn.
    destruct (refreshed_frame event w) as (_ & _ & _ & _ & Hargs & Ha & _).
    rewrite Ha. repeat split; try done.
    revert Hno. unfold isAllowed. cbn. rewrite Hargs.
    assert (He : environment (this (refreshed event w)) = environment (this w)).
    { unfold refreshed. by destruct (dataTransferWrapper (this w)). }
    rewrite He. intros Hno.
    apply orb_false_iff in Hno as [Hno ->].
    apply orb_false_iff in Hno as [-> _]. done. }
  assert (H2 : active (this w2) = true /\ dataTransferWrapper (this w2) = None).
  { subst w2. destruct H1 as (Ha & Hn & Hv). clearbody w1. revert w1 Ha Hn Hv.
    induction Hnoenter as [|a actions Hne _ IH]; intros v Ha Hn Hv; [done|].
    cbn. destruct (Hstuck v Ha Hn Hv a Hne) as (? & ? & ?). by apply IH. }
  destruct H1 as (? & ? & _), H2 as (Ha2 & Hn2).
  repeat split; try done.
  - intros [? _]. congruence.
  - intros [_ [? ?]]. congruence.
Qed.

(** *** The queue getter *)

(** X10.  [get queue()] answers with the queue given in [args.queue] when
    there is one, and then leaves the service alone; otherwise with the queue
    the service keeps under [args.name], or under the default name, which it
    creates empty at the first request.  The getter never alters a queue that
    exists; asking again gives the same queue and changes nothing; and the
    file chooser's getter, with the same arguments, resolves to the same
    queue. *)
Theorem queue_getter_is_stable (w : World) :
  let r := queue w in
  let w1 := world_after r in
  outcome r = Returned (target_queue w)
  /\ queue w1 = (Returned (target_queue w), w1)
  /\ (is_Some (arg_queue (args (this w))) -> w1 = w)
  /\ (arg_queue (args (this w)) = None ->
      is_Some (fileQueue w1 !! target_queue w))
  /\ (forall q, the_queue q w1 = the_queue q w)
  /\ (forall q qu, fileQueue w !! q = Some qu -> fileQueue w1 !! q = Some qu)
  /\ (this w1 = this w /\ heap w1 = heap w
      /\ invoked w1 = invoked w /\ scheduled w1 = scheduled w)
  /\ (forall c : FileUploadComponent,
        upload_arg_queue (upload_args c) = arg_queue (args (this w)) ->
        upload_arg_name (upload_args c) = arg_name (args (this w)) ->
        FileUpload.queue c w = r).
Proof.
  intros r w1. subst w1 r. rewrite queue_spec.
  unfold outcome, world_after. cbn [fst snd].
  split; [done|].
  assert (Hchooser : forall c : FileUploadComponent,
    upload_arg_queue (upload_args c) = arg_queue (args (this w)) ->
    upload_arg_name (upload_args c) = arg_name (args (this w)) ->
    FileUpload.queue c w = queue w).
  { intros c Hq Hn. unfold FileUpload.queue, queue. run. by rewrite Hq, Hn. }
  rewrite queue_spec in Hchooser.
  destruct (arg_queue (args (this w))) as [q0|] eqn:Hq0.
  { rewrite queue_spec, Hq0. repeat split; done. }
  destruct (fileQueue w !! target_queue w) as [qu0|] eqn:Hl.
  { rewrite queue_spec, Hq0, Hl. repeat split; try done; eauto. }
  rewrite queue_spec. unfold target_queue at 1 2 3. cbn. rewrite Hq0.
  fold (target_queue w). rewrite lookup_insert_eq.
  repeat split; try done.
  - unfold target_queue. by rewrite Hq0.
  - intros _. by rewrite lookup_insert_eq.
  - intros q. unfold the_queue. cbn.
    destruct (decide (q = target_queue w)) as [->|Hne].
    + by rewrite lookup_insert_eq, Hl.
    + by rewrite lookup_insert_ne.
  - intros q qu Hq. cbn.
    destruct (decide (q = target_queue w)) as [->|Hne]; [congruence|].
    by rewrite lookup_insert_ne.
Qed.

(** *** Listening to the queue *)

Lemma Queue_addListener_fresh (q : QueueName) (l : Listener) (w : World) :
  Forall (fun l' => listener_id l' <> listener_id l) (queue_listeners (the_queue q w)) ->
  Queue_addListener q l w =
  (Returned tt,
   set_fileQueue
     (<[q := {| queue_files := queue_files (the_queue q w);
                queue_listeners := queue_listeners (the_queue q w) ++ [l] |}]>
        (fileQueue w)) w).
Proof.
  intros Hfresh. unfold Queue_addListener, put_queue. run.
  assert (Hno : existsb (is_listener (listener_id l)) (queue_listeners (the_queue q w))
                = false).
  { induction Hfresh as [|l' ls Hl' _ IH]; [done|]. cbn.
    unfold is_listener at 1. by rewrite bool_decide_eq_false_2, IH. }
  by rewrite Hno.
Qed.

(** The world in which listener [l] has been added to the queue [q]. *)
Lemma listening_to (q : QueueName) (l : Listener) (w w0 : World) :
  Forall (fun l' => listener_id l' <> listener_id l) (queue_listeners (the_queue q w)) ->
  w0 = w \/ (fileQueue w !! q = None
             /\ w0 = set_fileQueue (<[q := empty_queue]> (fileQueue w)) w) ->
  Queue_addListener q l w0 =
  (Returned tt,
   set_fileQueue
     (<[q := {| queue_files := queue_files (the_queue q w);
                queue_listeners := queue_listeners (the_queue q w) ++ [l] |}]>
        (fileQueue w)) w).
Proof.
  intros Hfresh [->|[Hnone ->]]; [by apply Queue_addListener_fresh|].
  assert (Hq : the_queue q (set_fileQueue (<[q := empty_queue]> (fileQueue w)) w)
               = the_queue q w).
  { unfold the_queue. cbn. by rewrite lookup_insert_eq, Hnone. }
  rewrite Queue_addListener_fresh by by rewrite Hq.
  rewrite Hq. cbn. by rewrite insert_insert_eq.
Qed.

Lemma bindListeners_install_spec (w : World) :
  listening w = [] ->
  bindListeners_install w =
  (Returned tt,
   set_fileQueue
     (<[target_queue w := {| queue_files := queued w;
                             queue_listeners := [as_listener w] |}]>
        (fileQueue w)) w).
Proof.
  intros Hnone. unfold bindListeners_install. run. rewrite queue_spec.
  assert (Hfresh : Forall (fun l' => listener_id l' <> listener_id (as_listener w))
                     (queue_listeners (the_queue (target_queue w) w))).
  { fold (listening w). by rewrite Hnone. }
  assert (Hl : forall w0,
    w0 = w \/ (fileQueue w !! target_queue w = None
               /\ w0 = set_fileQueue (<[target_queue w := empty_queue]> (fileQueue w)) w) ->
    as_listener w0 = as_listener w).
  { by intros w0 [->|[_ ->]]. }
  fold (listening w) in *.
  destruct (arg_queue (args (this w))) eqn:Hq.
  - rewrite (listening_to _ _ w w) by eauto.
    fold (listening w) (queued w). by rewrite Hnone.
  - destruct (fileQueue w !! target_queue w) eqn:Hlk.
    + rewrite (listening_to _ _ w w) by eauto.
      fold (listening w) (queued w). by rewrite Hnone.
    + rewrite Hl by eauto. rewrite (listening_to _ _ w) by eauto.
      fold (listening w) (queued w). by rewrite Hnone.
Qed.

Lemma chooser_install_spec (c : FileUploadComponent) (w : World) :
  upload_arg_queue (upload_args c) = arg_queue (args (this w)) ->
  upload_arg_name (upload_args c) = arg_name (args (this w)) ->
  listening w = [] ->
  FileUpload.bindListeners_install c w =
  (Returned tt,
   set_fileQueue
     (<[target_queue w := {| queue_files := queued w;
                             queue_listeners := [FileUpload.as_listener c] |}]>
        (fileQueue w)) w).
Proof.
  intros Hq Hn Hnone. unfold FileUpload.bindListeners_install. run.
  assert (Hsame : FileUpload.queue c w = queue w).
  { unfold FileUpload.queue, queue. run. by rewrite Hq, Hn. }
  rewrite Hsame, queue_spec.
  assert (Hfresh : Forall (fun l' => listener_id l' <> listener_id (FileUpload.as_listener c))
                     (queue_listeners (the_queue (target_queue w) w))).
  { fold (listening w). by rewrite Hnone. }
  destruct (arg_queue (args (this w))) eqn:Hq0.
  - rewrite (listening_to _ _ w w) by eauto.
    fold (listening w) (queued w). by rewrite Hnone.
  - destruct (fileQueue w !! target_queue w) eqn:Hlk.
    + rewrite (listening_to _ _ w w) by eauto.
      fold (listening w) (queued w). by rewrite Hnone.
    + rewrite (listening_to _ _ w) by eauto.
      fold (listening w) (queued w). by rewrite Hnone.
Qed.

(** A drop on a component whose queue has got the listeners [ls]. *)
Lemma didDrop_listened (event : FileUploadDragEvent) (w : World)
    (wr : DataTransferWrapper) (ls : list Listener) :
  isAllowed w = true ->
  dataTransferWrapper (this w) = Some wr ->
  let bound :=
    set_fileQueue
      (<[target_queue w := {| queue_files := queued w; queue_listeners := ls |}]>
         (fileQueue w)) w in
  let r := didDrop event bound in
  let us := accepted w (files (refreshed event w)) in
  outcome r = Returned tt
  /\ queued (world_after r) = queued w ++ us
  /\ invoked (world_after r) =
     invoked w
     ++ flat_map (fun u => flat_map (sync_call u) ls) us
     ++ called (arg_onDrop (args (this w)))
          (DropArgs us (Some (set_wrapper_dataTransfer
                                (event_dataTransfer event) wr)))
  /\ scheduled (world_after r) =
     scheduled w ++ flat_map (fun u => flat_map (deferred_call u) ls) us.
Proof.
  intros Hok Hwr bound r us.
  assert (Hb : queued bound = queued w /\ listening bound = ls).
  { subst bound. unfold queued, listening, the_queue, target_queue. cbn.
    by rewrite lookup_insert_eq. }
  destruct Hb as [Hbq Hbl].
  assert (Hfs : files (refreshed event bound) = files (refreshed event w)).
  { subst bound. unfold refreshed. cbn. by rewrite Hwr. }
  destruct (didDrop_allowed event bound wr) as (Ho & Hw' & Hq & Hi); [done..|].
  fold r in Ho, Hw', Hq, Hi.
  change (accepted bound) with (accepted w) in *.
  rewrite Hfs in *. fold us in Hw', Hq, Hi.
  rewrite Hbq, Hbl in *.
  repeat split; try done.
  rewrite Hw'. cbn [clear_wrapper activate record_calls set_this set_invoked scheduled].
  rewrite scheduled_enqueued.
  destruct (queued_refreshed event bound) as (_ & -> & _).
  destruct (refreshed_frame event bound) as (_ & _ & _ & -> & _).
  by rewrite Hbl.
Qed.

(** X11.  A file chooser bound to the queue that a drop zone resolves to (the
    same [queue] and [name] arguments; no one listened before) hears of every
    file an allowed drop accepts: the drop itself makes no call of the
    chooser's [onFileAdd], it leaves one call for each accepted file waiting
    in the run loop, in the order of the drop, and the next turn makes them,
    after [onDrop] has been called. *)
Theorem dropped_files_reach_a_bound_chooser (c : FileUploadComponent)
    (cb : Callback) (event : FileUploadDragEvent) (w : World)
    (wr : DataTransferWrapper) :
  upload_arg_onFileAdd (upload_args c) = Some cb ->
  upload_arg_queue (upload_args c) = arg_queue (args (this w)) ->
  upload_arg_name (upload_args c) = arg_name (args (this w)) ->
  listening w = [] ->
  isAllowed w = true ->
  dataTransferWrapper (this w) = Some wr ->
  let bound := world_after (FileUpload.bindListeners_install c w) in
  let r := didDrop event bound in
  let us := accepted w (files (refreshed event w)) in
  let dropped :=
    called (arg_onDrop (args (this w)))
      (DropArgs us (Some (set_wrapper_dataTransfer (event_dataTransfer event) wr))) in
  let added := (fun u => Invoke cb (FileArg u)) <$> us in
  listening bound = [FileUpload.as_listener c]
  /\ queued bound = queued w
  /\ outcome r = Returned tt
  /\ queued (world_after r) = queued w ++ us
  /\ invoked (world_after r) = invoked w ++ dropped
  /\ scheduled (world_after r) = scheduled w ++ added
  /\ invoked (world_after (run_next_turn (world_after r))) =
     invoked w ++ dropped ++ scheduled w ++ added.
Proof.
  intros Hcb Hq Hn Hnone Hok Hwr bound r us dropped added.
  assert (Hbound : bound =
    set_fileQueue
      (<[target_queue w := {| queue_files := queued w;
                              queue_listeners := [FileUpload.as_listener c] |}]>
         (fileQueue w)) w).
  { subst bound. by rewrite chooser_install_spec. }
  subst r. rewrite Hbound. clear Hbound bound.
  destruct (didDrop_listened event w wr [FileUpload.as_listener c] Hok Hwr)
    as (Ho & Hqd & Hi & Hs).
  fold us dropped in Ho, Hqd, Hi, Hs.
  assert (Hsync : flat_map (fun u => flat_map (sync_call u) [FileUpload.as_listener c]) us = []).
  { clear. induction us as [|u us IH]; [done|]. cbn. exact IH. }
  assert (Hlater : flat_map (fun u => flat_map (deferred_call u) [FileUpload.as_listener c]) us
                   = added).
  { subst added. clear -Hcb.
    rewrite (flat_map_ext _ (fun u => [Invoke cb (FileArg u)])).
    - induction us as [|u us IH]; [done|]. cbn [flat_map fmap list_fmap app].
      by rewrite IH.
    - intros u. cbn. by rewrite Hcb. }
  rewrite Hsync in Hi. rewrite Hlater in Hs. cbn [app] in Hi.
  split.
  { unfold listening, the_queue, target_queue. cbn. by rewrite lookup_insert_eq. }
  split.
  { unfold queued at 1, the_queue, target_queue. cbn. by rewrite lookup_insert_eq. }
  split; [done|]. split; [done|]. split; [done|]. split; [done|].
  match goal with
  | |- invoked (world_after (run_next_turn ?v)) = _ =>
      change (invoked v ++ scheduled v = invoked w ++ dropped ++ scheduled w ++ added)
  end.
  by rewrite Hi, Hs, <- app_assoc.
Qed.

(** X12.  A drop zone bound to its own queue (no one listened before) calls
    its [onFileAdd] during the drop, once for each accepted file and in the
    order of the drop, and calls [onDrop] after the last of them; nothing is
    left to the run loop. *)
Theorem bound_dropzone_calls_onFileAdd_first (event : FileUploadDragEvent)
    (w : World) (wr : DataTransferWrapper) :
  listening w = [] ->
  isAllowed w = true ->
  dataTransferWrapper (this w) = Some wr ->
  let bound := world_after (bindListeners_install w) in
  let r := didDrop event bound in
  let us := accepted w (files (refreshed event w)) in
  listening bound = [as_listener w]
  /\ outcome r = Returned tt
  /\ invoked (world_after r) =
     invoked w
     ++ flat_map (fun u => called (arg_onFileAdd (args (this w))) (FileArg u)) us
     ++ called (arg_onDrop (args (this w)))
          (DropArgs us (Some (set_wrapper_dataTransfer
                                (event_dataTransfer event) wr)))
  /\ scheduled (world_after r) = scheduled w.
Proof.
  intros Hnone Hok Hwr bound r us.
  assert (Hbound : bound =
    set_fileQueue
      (<[target_queue w := {| queue_files := queued w;
                              queue_listeners := [as_listener w] |}]>
         (fileQueue w)) w).
  { subst bound. by rewrite bindListeners_install_spec. }
  subst r. rewrite Hbound. clear Hbound bound.
  destruct (didDrop_listened event w wr [as_listener w] Hok Hwr)
    as (Ho & _ & Hi & Hs).
  fold us in Ho, Hi, Hs.
  assert (Hsync : flat_map (fun u => flat_map (sync_call u) [as_listener w]) us
                  = flat_map (fun u => called (arg_onFileAdd (args (this w))) (FileArg u)) us).
  { apply flat_map_ext. intros u. cbn. by rewrite app_nil_r. }
  assert (Hlater : flat_map (fun u => flat_map (deferred_call u) [as_listener w]) us = []).
  { clear. induction us as [|u us IH]; [done|]. cbn. exact IH. }
  rewrite Hsync in Hi. rewrite Hlater, app_nil_r in Hs.
  split.
  { unfold listening, the_queue, target_queue. cbn. by rewrite lookup_insert_eq. }
  done.
Qed.

(** *** Edge cases of the handlers *)

(** X15.  Without a stored wrapper (no drag-enter came before, or a drop or
    leave has cleared it) a drag-leave does nothing at all, and neither does a
    drop that the policy permits: no file is queued and [onDrop] is not
    called.  A drop that the policy rejects still writes the cursor to the
    event's payload. *)
Theorem handlers_without_wrapper (event : FileUploadDragEvent) (w : World) :
  dataTransferWrapper (this w) = None ->
  didLeaveDropzone event w = (Returned tt, w)
  /\ (isAllowed w = true -> didDrop event w = (Returned tt, w))
  /\ (isAllowed w = false ->
      forall l, event_dataTransfer event = Some l ->
      didDrop event w = (Returned tt, clear_wrapper (with_cursor l w)))
  /\ (isAllowed w = false -> didDragOver event w = (Returned tt, w)).
Proof.
  intros Hnone.
  assert (Hr : refreshed event w = w) by (unfold refreshed; by rewrite Hnone).
  rewrite didLeaveDropzone_spec, didDrop_spec, didDragOver_spec, Hnone, Hr.
  rewrite bool_decide_eq_false_2 by (by intros [? ?]). cbn.
  repeat split.
  - by intros ->.
  - intros -> l ->. done.
  - by intros ->.
Qed.

(** X16.  Of the four handlers only [didLeaveDropzone] looks at
    [isDestroyed]: what [didEnterDropzone], [didDragOver] and [didDrop] return
    and write is the same on a destroyed component as on a live one.  So a
    permitted drag-enter sets [active] on a destroyed component, and a
    permitted drop resets it. *)
Theorem only_drag_leave_reads_isDestroyed (event : FileUploadDragEvent)
    (b : bool) (w : World) :
  didEnterDropzone event (set_isDestroyed b w) =
    (outcome (didEnterDropzone event w),
     set_isDestroyed b (world_after (didEnterDropzone event w)))
  /\ didDragOver event (set_isDestroyed b w) =
     (outcome (didDragOver event w),
      set_isDestroyed b (world_after (didDragOver event w)))
  /\ didDrop event (set_isDestroyed b w) =
     (outcome (didDrop event w),
      set_isDestroyed b (world_after (didDrop event w))).
Proof.
  rewrite !didEnterDropzone_spec, !didDragOver_spec, !didDrop_spec.
  unfold outcome, world_after.
  change (isAllowed (entered event (set_isDestroyed b w)))
    with (isAllowed (entered event w)).
  change (isAllowed (set_isDestroyed b w)) with (isAllowed w).
  change (dataTransferWrapper (this (set_isDestroyed b w)))
    with (dataTransferWrapper (this w)).
  change (args (this (set_isDestroyed b w))) with (args (this w)).
  change (accepted (set_isDestroyed b w)) with (accepted w).
  assert (Hr : refreshed event (set_isDestroyed b w)
               = set_isDestroyed b (refreshed event w)).
  { unfold refreshed. cbn. by destruct (dataTransferWrapper (this w)). }
  assert (He : forall us v, enqueued us (set_isDestroyed b v)
                            = set_isDestroyed b (enqueued us v)).
  { intros us v. by destruct us. }
  rewrite !Hr.
  change (files (set_isDestroyed b (refreshed event w)))
    with (files (refreshed event w)).
  rewrite He.
  destruct (isAllowed (entered event w)), (isAllowed w),
    (event_dataTransfer event),
    (bool_decide (is_Some (dataTransferWrapper (this w)))); cbn;
    rewrite ?this_enqueued; repeat split; reflexivity.
Qed.

(** X17.  A handler writes to no payload but that of its own event, and
    writes nothing there but the configured cursor as [dropEffect]. *)
Theorem handlers_write_only_the_cursor (a : Action) (w : World) (l : loc) :
  heap (after a w) !! l = heap w !! l
  \/ (event_dataTransfer (action_event a) = Some l
      /\ heap (after a w) !! l = set_dropEffect (cursor w) <$> heap w !! l).
Proof.
  assert (Hwrite : forall l0,
    event_dataTransfer (action_event a) = Some l0 ->
    alter (set_dropEffect (cursor w)) l0 (heap w) !! l = heap w !! l
    \/ (event_dataTransfer (action_event a) = Some l
        /\ alter (set_dropEffect (cursor w)) l0 (heap w) !! l
           = set_dropEffect (cursor w) <$> heap w !! l)).
  { intros l0 He. rewrite lookup_alter.
    case_decide; [subst; by right | by left]. }
  unfold after, world_after.
  destruct a as [e|e|e|e]; cbn [perform action_event] in *.
  - rewrite didEnterDropzone_spec.
    destruct (isAllowed (entered e w)), (event_dataTransfer e) eqn:He;
      cbn [snd]; try by left.
    by apply Hwrite.
  - rewrite didLeaveDropzone_spec.
    destruct (bool_decide _ && isAllowed w), (event_dataTransfer e) eqn:He,
      (isDestroyed (this w)); cbv beta zeta; cbn [snd];
      unfold clear_wrapper, activate, record_calls, with_cursor; cbn;
      rewrite ?cursor_refreshed, ?(proj1 (refreshed_frame e w));
      try (by left); by apply Hwrite.
  - rewrite didDragOver_spec.
    destruct (isAllowed w), (event_dataTransfer e) eqn:He; cbn [snd];
      unfold with_cursor; cbn;
      rewrite ?cursor_refreshed, ?(proj1 (refreshed_frame e w));
      try (by left); by apply Hwrite.
  - rewrite didDrop_spec.
    destruct (isAllowed w), (event_dataTransfer e) eqn:He,
      (bool_decide (is_Some (dataTransferWrapper (this w))));
      cbv beta zeta; cbn [snd];
      unfold clear_wrapper, activate, record_calls, with_cursor; cbn;
      rewrite ?heap_enqueued, ?cursor_refreshed, ?(proj1 (refreshed_frame e w));
      try (by left); by apply Hwrite.
Qed.

(** X18.  Drag-over fires again and again, and repeating it is harmless: a
    second [didDragOver] with the same event leaves the world exactly as the
    first one left it. *)
Theorem didDragOver_again (event : FileUploadDragEvent) (w : World) :
  after (Over event) (after (Over event) w) = after (Over event) w.
Proof.
  unfold after, world_after. cbn [perform].
  assert (Hrr : forall v, refreshed event (refreshed event v) = refreshed event v).
  { intros v. unfold refreshed.
    destruct (dataTransferWrapper (this v)) eqn:Hv; cbn; by rewrite ?Hv. }
  assert (Hcc : forall l v, with_cursor l (with_cursor l v) = with_cursor l v).
  { intros l v. unfold with_cursor, set_heap, cursor. cbn. f_equal.
    apply map_eq. intros l'. rewrite !lookup_alter.
    repeat case_decide; try done. subst. by destruct (heap v !! l'). }
  assert (Hrc : forall l v, refreshed event (with_cursor l v)
                            = with_cursor l (refreshed event v)).
  { intros l v. unfold refreshed, with_cursor, cursor. cbn.
    by destruct (dataTransferWrapper (this v)). }
  rewrite !didDragOver_spec.
  destruct (isAllowed w) eqn:Hok, (event_dataTransfer event) as [l|] eqn:Hl;
    cbn [snd].
  - assert (Hok' : isAllowed (with_cursor l (refreshed event w)) = true).
    { change (isAllowed (refreshed event w) = true). by rewrite isAllowed_refreshed. }
    rewrite Hok'. cbn [snd]. by rewrite Hrc, Hrr, Hcc.
  - rewrite isAllowed_refreshed, Hok. cbn [snd]. apply Hrr.
  - rewrite isAllowed_refreshed, Hok. cbn [snd]. apply Hrr.
  - rewrite isAllowed_refreshed, Hok. cbn [snd]. apply Hrr.
Qed.

End Component.
End FileDropzone.

(** * FileUploadComponent: the claim about [onFileAdded] *)

(** C9.  [onFileAdded] of the file chooser does not call [onFileAdd]: it
    hands the call to the run loop, which makes it in the next turn.  So when
    a file is added to a queue the component listens to, [Queue.add] returns
    with the call still waiting; the only calls made during the notification
    are those of listening drop zones. *)
Theorem onFileAdd_is_deferred (c : FileUploadComponent) (cb : Callback)
    (file : UploadFile) (q : QueueName) (w : World) :
  upload_arg_onFileAdd (upload_args c) = Some cb ->
  In (FileUpload.as_listener c) (queue_listeners (the_queue q w)) ->
  let r := FileUpload.onFileAdded c file w in
  let added := Queue_add q file w in
  let ls := queue_listeners (the_queue q w) in
  (outcome r = Returned tt
   /\ invoked (world_after r) = invoked w
   /\ scheduled (world_after r) = scheduled w ++ [Invoke cb (FileArg file)]
   /\ invoked (world_after (run_next_turn (world_after r))) =
      invoked w ++ scheduled w ++ [Invoke cb (FileArg file)])
  /\ (outcome added = Returned tt
      /\ invoked (world_after added) = invoked w ++ flat_map (sync_call file) ls
      /\ scheduled (world_after added) = scheduled w ++ flat_map (deferred_call file) ls
      /\ In (Invoke cb (FileArg file)) (flat_map (deferred_call file) ls)
      /\ (forall i, In i (flat_map (sync_call file) ls) ->
          exists id a, In (DropzoneListener id a) ls
                       /\ arg_onFileAdd a = Some (callee i))).
Proof.
  intros Hcb Hin r added ls. split.
  - subst r. unfold FileUpload.onFileAdded, FileUpload_onFileAdded.
    rewrite Hcb. unfold outcome, world_after. cbn.
    repeat split; done.
  - subst added. unfold Queue_add, put_queue, mbind, M_bind, gets, modify.
    cbn beta iota. fold ls. rewrite FileDropzone.notify_spec.
    unfold outcome, world_after. cbn.
    repeat split; try done.
    + apply in_flat_map. exists (FileUpload.as_listener c). split; [done|].
      cbn. rewrite Hcb. by left.
    + intros i Hi. apply in_flat_map in Hi as (l & Hl & Hi).
      destruct l as [id a|id a]; cbn in Hi; [|done].
      destruct (arg_onFileAdd a) as [cb'|] eqn:Ha; [|done].
      destruct Hi as [<-|[]]. by exists id, a.
Qed.

(** * FileUploadComponent: binding, unbinding and the input's id *)

Lemma chooser_queue_spec (c : FileUploadComponent) (w : World) :
  let q := match upload_arg_queue (upload_args c) with
           | Some q => q
           | None => name_or_default (upload_arg_name (upload_args c))
           end in
  exists w0,
    FileUpload.queue c w = (Returned q, w0)
    /\ (w0 = w \/ (fileQueue w !! q = None
                   /\ w0 = set_fileQueue (<[q := empty_queue]> (fileQueue w)) w)).
Proof.
  unfold FileUpload.queue, findOrCreate, put_queue, mbind, mret, M_bind, M_ret,
    gets, modify. cbn beta iota.
  destruct (upload_arg_queue (upload_args c)); [by eexists; eauto|].
  destruct (fileQueue w !! name_or_default (upload_arg_name (upload_args c))) eqn:Hl;
    eexists; eauto.
Qed.

(** X13.  [bindListeners] of the file chooser adds the component to the
    listeners of the queue its getter resolves to, behind those that were
    there; binding a second time changes nothing; and the function that
    [bindListeners] returns takes the component out again, which leaves every
    queue with the files and the listeners it had before the binding. *)
Theorem chooser_binds_and_unbinds (c : FileUploadComponent) (w : World) :
  let q := match upload_arg_queue (upload_args c) with
           | Some q => q
           | None => name_or_default (upload_arg_name (upload_args c))
           end in
  Forall (fun l => listener_id l <> upload_guid c) (queue_listeners (the_queue q w)) ->
  let w1 := world_after (FileUpload.bindListeners_install c w) in
  let w2 := world_after (FileUpload.bindListeners_teardown c w1) in
  queue_listeners (the_queue q w1) =
    queue_listeners (the_queue q w) ++ [FileUpload.as_listener c]
  /\ queue_files (the_queue q w1) = queue_files (the_queue q w)
  /\ FileUpload.bindListeners_install c w1 = (Returned tt, w1)
  /\ (forall q', the_queue q' w2 = the_queue q' w)
  /\ Forall (fun l => listener_id l <> upload_guid c) (queue_listeners (the_queue q w2)).
Proof.
  intros q Hfresh w1 w2.
  set (ls := queue_listeners (the_queue q w)) in *.
  set (me := FileUpload.as_listener c).
  assert (Hw1 : w1 =
    set_fileQueue
      (<[q := {| queue_files := queue_files (the_queue q w);
                 queue_listeners := ls ++ [me] |}]> (fileQueue w)) w).
  { subst w1. unfold FileUpload.bindListeners_install, world_after, mbind, M_bind.
    destruct (chooser_queue_spec c w) as (w0 & -> & Hw0). fold q in Hw0.
    fold q me. by rewrite (FileDropzone.listening_to q me w w0). }
  assert (Hq1 : the_queue q w1 =
    {| queue_files := queue_files (the_queue q w); queue_listeners := ls ++ [me] |}).
  { rewrite Hw1. unfold the_queue. cbn. by rewrite lookup_insert_eq. }
  assert (Hget : FileUpload.queue c w1 = (Returned q, w1)).
  { destruct (chooser_queue_spec c w1) as (w0 & Hqc & [->|[Hnone _]]); [done|].
    fold q in Hnone. rewrite Hw1 in Hnone. cbn in Hnone.
    by rewrite lookup_insert_eq in Hnone. }
  split; [by rewrite Hq1|]. split; [by rewrite Hq1|]. split.
  { unfold FileUpload.bindListeners_install, Queue_addListener, mbind, M_bind, gets.
    rewrite Hget. cbn beta iota. fold me. rewrite Hq1. cbn [queue_listeners].
    rewrite existsb_app. cbn. unfold is_listener at 2.
    by rewrite bool_decide_eq_true_2, orb_true_r. }
  assert (Hkeep : List.filter (fun l' => negb (is_listener (listener_id me) l'))
                    (ls ++ [me]) = ls).
  { rewrite List.filter_app. cbn. unfold is_listener at 2.
    rewrite bool_decide_eq_true_2 by done. cbn. rewrite app_nil_r.
    clear -Hfresh. induction Hfresh as [|l ls Hl _ IH]; [done|]. cbn.
    unfold is_listener at 1. rewrite bool_decide_eq_false_2 by done. cbn.
    by rewrite IH. }
  assert (Hw2 : w2 =
    set_fileQueue
      (<[q := {| queue_files := queue_files (the_queue q w);
                 queue_listeners := ls |}]> (fileQueue w)) w).
  { subst w2. unfold FileUpload.bindListeners_teardown, Queue_removeListener,
      put_queue, world_after, mbind, M_bind, gets, modify.
    rewrite Hget. cbn beta iota. fold me. rewrite Hq1. cbn [queue_listeners queue_files snd].
    rewrite Hkeep, Hw1. cbn. by rewrite insert_insert_eq. }
  assert (Hq2 : forall q', the_queue q' w2 = the_queue q' w).
  { intros q'. rewrite Hw2. unfold the_queue. cbn.
    destruct (decide (q' = q)) as [->|Hne].
    - rewrite lookup_insert_eq. cbn. subst ls. unfold the_queue.
      by destruct (default empty_queue (fileQueue w !! q)).
    - by rewrite lookup_insert_ne. }
  split; [done|]. by rewrite Hq2.
Qed.

(** X14.  [get for()] answers with [args.for] when it is given, and otherwise
    builds the id from the component's guid: as [guidFor] names different
    objects differently, two file choosers without a [for] argument never get
    the same id. *)
Theorem generated_input_ids_differ (guidFor : nat -> string)
    (c1 c2 : FileUploadComponent) :
  Inj (=) (=) guidFor ->
  upload_arg_for (upload_args c1) = None ->
  upload_arg_for (upload_args c2) = None ->
  upload_guid c1 <> upload_guid c2 ->
  FileUpload.for_ guidFor c1 <> FileUpload.for_ guidFor c2
  /\ (forall (c : FileUploadComponent) (id : string),
        upload_arg_for (upload_args c) = Some id -> FileUpload.for_ guidFor c = id).
Proof.
  intros Hinj H1 H2 Hne. split.
  - unfold FileUpload.for_. rewrite H1, H2. cbn [default].
    intros Heq. apply Hne, Hinj. by eapply (inj (String.append "file-input-")).
  - intros c id Hid. unfold FileUpload.for_. by rewrite Hid.
Qed.

(** * The theorems at work on the sample wrapper *)

Import Sample.

(** The claim C1 as it was stated fails for [didDrop]: a web drag dropped on
    a drop zone with default arguments, in production, is turned away, and the
    drop changes the [dropEffect] of the event's payload from [none] to
    [copy]. *)
Lemma rejected_drop_writes_dropEffect :
  let w := dropzone plain_args false (Some web_wrapper) in
  let w' := world_after (FileDropzone.didDrop dataTransfer filesOrItems web_event w) in
  environment (this w) <> "test"
  /\ wrapper_source web_wrapper <> os
  /\ arg_allowUploadsFromWebsites (args (this w)) = None
  /\ FileDropzone.isAllowed w = false
  /\ dropEffect <$> heap w !! 2 = Some EffectNone
  /\ dropEffect <$> heap w' !! 2 = Some EffectCopy
  /\ heap w' !! 2 <> heap w !! 2.
Proof. cbv zeta. repeat split; try done. Qed.

Lemma rejected_drag_is_silent_witness :
  let w := dropzone plain_args false (Some web_wrapper) in
  let over := FileDropzone.didDragOver dataTransfer web_event w in
  let drop := FileDropzone.didDrop dataTransfer filesOrItems web_event w in
  heap (world_after over) = heap w
  /\ invoked (world_after drop) = []
  /\ fileQueue (world_after drop) = ∅
  /\ dataTransferWrapper (this (world_after drop)) = None.
Proof.
  cbv zeta.
  destruct (FileDropzone.rejected_drag_is_silent dataTransfer filesOrItems
              web_event 2 (dropzone plain_args false (Some web_wrapper)))
    as ((_ & Hheap & _) & (_ & _ & Hqueue & Hcalls & _ & Hwrapper & _)).
  - discriminate.
  - intros wr [= <-]. discriminate.
  - discriminate.
  - reflexivity.
  - exact (conj Hheap (conj Hcalls (conj Hqueue Hwrapper))).
Defined.

Lemma policy_decides_drag_enter_witness :
  let w := dropzone plain_args false None in
  let w' := world_after (FileDropzone.didEnterDropzone dataTransfer
                           new_DataTransferWrapper filesOrItems os_event w) in
  active (this w') = true
  /\ dropEffect <$> heap w' !! 1 = Some EffectCopy.
Proof.
  cbv zeta.
  destruct (FileDropzone.policy_decides_drag_enter dataTransfer
              new_DataTransferWrapper filesOrItems os_event 1
              (dropzone plain_args false None) eq_refl eq_refl)
    as (_ & _ & _ & Hactive & Hallowed & _).
  split.
  - apply Hactive. reflexivity.
  - destruct Hallowed as (_ & -> & _); reflexivity.
Defined.

Lemma web_drop_as_os_drop_witness :
  let w := dropzone (with_allowUploadsFromWebsites true (with_filter no_exe plain_args))
             true (Some odd_wrapper) in
  let drop s :=
    FileDropzone.didDrop dataTransfer filesOrItems odd_event
      (FileDropzone.classified s w) in
  FileDropzone.queued (world_after (drop web)) = [new_UploadFile Y DragAndDrop]
  /\ FileDropzone.queued (world_after (drop os)) = [new_UploadFile Y DragAndDrop]
  /\ fileQueue (world_after (drop web)) = fileQueue (world_after (drop os)).
Proof.
  cbv zeta.
  destruct (FileDropzone.web_drop_as_os_drop dataTransfer filesOrItems odd_event
              (dropzone (with_allowUploadsFromWebsites true
                           (with_filter no_exe plain_args))
                 true (Some odd_wrapper))
              odd_wrapper eq_refl eq_refl eq_refl)
    as (_ & _ & _ & Hqueues & _ & Hweb & Hos & _).
  exact (conj Hweb (conj Hos Hqueues)).
Defined.

Lemma filter_excludes_silently_witness :
  let w := dropzone (with_filter no_exe plain_args) true (Some os_wrapper) in
  let r := FileDropzone.didDrop dataTransfer filesOrItems os_event w in
  outcome r = Returned tt
  /\ FileDropzone.queued (world_after r) = [new_UploadFile Y DragAndDrop]
  /\ invoked (world_after r) =
     [Invoke on_drop (DropArgs [new_UploadFile Y DragAndDrop] (Some os_wrapper))].
Proof.
  cbv zeta.
  destruct (FileDropzone.filter_excludes_silently dataTransfer filesOrItems
              os_event
              (dropzone (with_filter no_exe plain_args) true (Some os_wrapper))
              no_exe X Y)
    as (Hreturned & Hqueued & Hcalls & _).
  - reflexivity.
  - discriminate.
  - reflexivity.
  - reflexivity.
  - reflexivity.
  - reflexivity.
  - exact (conj Hreturned (conj Hqueued Hcalls)).
Defined.

(** The claim C4 as it was stated fails when [multiple] is false: of the two
    files dropped from the desktop only the first reaches the filter, which
    turns it away, so the file that the filter would let through is not
    queued and [onDrop] is handed no file. *)
Lemma filtered_drop_may_lose_the_accepted_file :
  let w := dropzone (with_multiple false (with_filter no_exe plain_args))
             true (Some os_wrapper) in
  let r := FileDropzone.didDrop dataTransfer filesOrItems os_event w in
  let y := new_UploadFile Y DragAndDrop in
  FileDropzone.isAllowed w = true
  /\ FileDropzone.candidates filesOrItems (FileDropzone.refreshed dataTransfer os_event w)
     = [NativeFile X; NativeFile Y]
  /\ FileDropzone.passes w (new_UploadFile X DragAndDrop) = false
  /\ FileDropzone.passes w y = true
  /\ outcome r = Returned tt
  /\ FileDropzone.queued (world_after r) <> FileDropzone.queued w ++ [y]
  /\ FileDropzone.queued (world_after r) = []
  /\ invoked (world_after r) = [Invoke on_drop (DropArgs [] (Some os_wrapper))].
Proof. cbv zeta. repeat split; try done. Qed.

(** The claim C5 as it was stated fails when the filter turns the first file
    away: with [multiple] false and two files dropped from the desktop, the
    drop returns normally and queues no file at all. *)
Lemma single_drop_may_queue_nothing :
  let w := dropzone (with_multiple false (with_filter no_exe plain_args))
             true (Some os_wrapper) in
  let r := FileDropzone.didDrop dataTransfer filesOrItems os_event w in
  FileDropzone.isAllowed w = true
  /\ arg_multiple (args (this w)) = Some false
  /\ FileDropzone.candidates filesOrItems (FileDropzone.refreshed dataTransfer os_event w)
     = [NativeFile X; NativeFile Y]
  /\ outcome r = Returned tt
  /\ FileDropzone.queued (world_after r) = []
  /\ length (FileDropzone.queued (world_after r)) <> 1.
Proof. cbv zeta. repeat split; try done. Qed.

Lemma single_drop_considers_first_witness :
  let w := dropzone (with_multiple false plain_args) true (Some os_wrapper) in
  let r := FileDropzone.didDrop dataTransfer filesOrItems os_event w in
  FileDropzone.files filesOrItems (FileDropzone.refreshed dataTransfer os_event w)
  = [NativeFile X]
  /\ FileDropzone.queued (world_after r) = [new_UploadFile X DragAndDrop].
Proof.
  cbv zeta.
  destruct (FileDropzone.single_drop_considers_first dataTransfer
              new_DataTransferWrapper filesOrItems os_event
              (dropzone (with_multiple false plain_args) true (Some os_wrapper))
              os_wrapper (NativeFile X) [NativeFile Y]
              eq_refl eq_refl eq_refl eq_refl)
    as (Hfiles & _ & Hqueued & _).
  exact (conj Hfiles Hqueued).
Defined.


Lemma drag_leave_respects_teardown_witness :
  let w := destroy (dropzone plain_args true (Some os_wrapper)) in
  let r := FileDropzone.didLeaveDropzone dataTransfer filesOrItems os_event w in
  active (this (world_after r)) = true
  /\ dataTransferWrapper (this (world_after r)) = None
  /\ invoked (world_after r) =
     [Invoke on_leave (DragArgs [NativeFile X; NativeFile Y] (Some os_wrapper))].
Proof.
  cbv zeta.
  destruct (FileDropzone.drag_leave_respects_teardown dataTransfer filesOrItems
              os_event (destroy (dropzone plain_args true (Some os_wrapper)))
              os_wrapper eq_refl eq_refl)
    as (_ & Hcalls & Hwrapper & _ & Hdestroyed & _).
  exact (conj (Hdestroyed eq_refl) (conj Hwrapper Hcalls)).
Defined.

Lemma onFileAdd_is_deferred_witness :
  let w := listened (dropzone plain_args false None) in
  let file := new_UploadFile Y Browse in
  let added := Queue_add DEFAULT_QUEUE file w in
  invoked (world_after added) = [Invoke 5 (FileArg file)]
  /\ scheduled (world_after added) = [Invoke on_add (FileArg file)]
  /\ invoked (world_after (run_next_turn (world_after added))) =
     [Invoke 5 (FileArg file); Invoke on_add (FileArg file)].
Proof.
  cbv zeta.
  destruct (onFileAdd_is_deferred chooser on_add (new_UploadFile Y Browse)
              DEFAULT_QUEUE (listened (dropzone plain_args false None)) eq_refl)
    as (_ & _ & Hcalls & Hwaiting & _).
  - right. left. reflexivity.
  - split; [exact Hcalls|]. split; [exact Hwaiting|].
    cbn [run_next_turn modify world_after snd invoked set_scheduled set_invoked].
    rewrite Hcalls, Hwaiting. reflexivity.
Defined.

Lemma rejected_enter_keeps_wrapper_witness :
  let w := dropzone plain_args false None in
  let w' := world_after (FileDropzone.didEnterDropzone dataTransfer
                           new_DataTransferWrapper filesOrItems web_event w) in
  dataTransferWrapper (this w') = Some web_wrapper
  /\ active (this w') = false
  /\ dataTransferWrapper
       (this (world_after (FileDropzone.didLeaveDropzone dataTransfer filesOrItems
                             os_event w')))
     = Some {| wrapper_dataTransfer := Some 1; wrapper_source := web |}.
Proof.
  cbv zeta.
  destruct (FileDropzone.rejected_enter_keeps_wrapper dataTransfer
              new_DataTransferWrapper filesOrItems web_event
              (dropzone plain_args false None) eq_refl eq_refl)
    as (_ & Hstored & Hactive & _ & _ & _ & Hlater).
  split; [exact Hstored|]. split; [exact Hactive|].
  destruct (Hlater os_event) as (_ & Hwr & _ & Hleave & _).
  rewrite Hleave. exact Hwr.
Defined.

(** ** The further properties at work *)

Lemma items_are_never_queued_witness :
  let w := dropzone (with_allowUploadsFromWebsites true plain_args) true
             (Some web_wrapper) in
  let r := FileDropzone.didDrop dataTransfer filesOrItems web_event w in
  fileQueue (world_after r) = ∅
  /\ invoked (world_after r) = [Invoke on_drop (DropArgs [] (Some web_wrapper))].
Proof.
  cbv zeta.
  destruct (FileDropzone.items_are_never_queued dataTransfer filesOrItems
              web_event
              (dropzone (with_allowUploadsFromWebsites true plain_args) true
                 (Some web_wrapper))
              web_wrapper
              [Item {| item_kind := "string"; item_type := "text/uri-list" |}])
    as (_ & Hdrop & Hqueues).
  - repeat constructor. eauto.
  - reflexivity.
  - reflexivity.
  - reflexivity.
  - split; [exact Hqueues|]. rewrite Hdrop. reflexivity.
Defined.

Lemma enter_then_leave_is_idle_witness :
  let w := dropzone plain_args false None in
  let w1 := world_after (FileDropzone.didEnterDropzone dataTransfer
                           new_DataTransferWrapper filesOrItems os_event w) in
  let w2 := world_after (FileDropzone.didLeaveDropzone dataTransfer filesOrItems
                           os_event w1) in
  FileDropzone.dragging w1 /\ FileDropzone.idle w2 /\ fileQueue w2 = ∅.
Proof.
  cbv zeta.
  destruct (FileDropzone.enter_then_leave_is_idle dataTransfer
              new_DataTransferWrapper filesOrItems os_event os_event 1
              (dropzone plain_args false None) eq_refl eq_refl eq_refl)
    as (Hdragging & Hidle & Hqueues & _).
  exact (conj Hdragging (conj Hidle Hqueues)).
Defined.

Lemma permissive_policy_keeps_two_states_witness :
  let w := dropzone (with_allowUploadsFromWebsites true plain_args) false None in
  let w' := FileDropzone.after_all dataTransfer new_DataTransferWrapper filesOrItems
              [FileDropzone.Enter web_event; FileDropzone.Over web_event;
               FileDropzone.Drop web_event; FileDropzone.Enter os_event;
               FileDropzone.Leave os_event] w in
  FileDropzone.idle w' \/ FileDropzone.dragging w'.
Proof.
  cbv zeta.
  refine (proj1 (FileDropzone.permissive_policy_keeps_two_states dataTransfer
                   new_DataTransferWrapper filesOrItems
                   [FileDropzone.Enter web_event; FileDropzone.Over web_event;
                    FileDropzone.Drop web_event; FileDropzone.Enter os_event;
                    FileDropzone.Leave os_event]
                   (dropzone (with_allowUploadsFromWebsites true plain_args)
                      false None) _ eq_refl _ _)).
  - right. reflexivity.
  - repeat constructor; intros e [= <-]; eauto.
  - left. split; reflexivity.
Defined.

Lemma rejected_drop_leaves_active_set_witness :
  let entered_twice :=
    FileDropzone.after_all dataTransfer new_DataTransferWrapper filesOrItems
      [FileDropzone.Enter os_event; FileDropzone.Enter web_event]
      (dropzone plain_args false None) in
  let dropped :=
    world_after (FileDropzone.didDrop dataTransfer filesOrItems web_event entered_twice) in
  let later :=
    FileDropzone.after_all dataTransfer new_DataTransferWrapper filesOrItems
      [FileDropzone.Leave os_event; FileDropzone.Over os_event;
       FileDropzone.Drop web_event] dropped in
  active (this later) = true /\ dataTransferWrapper (this later) = None.
Proof.
  cbv zeta.
  refine (proj1 (proj2 (FileDropzone.rejected_drop_leaves_active_set dataTransfer
                          new_DataTransferWrapper filesOrItems web_event 2
                          (FileDropzone.after_all dataTransfer
                             new_DataTransferWrapper filesOrItems
                             [FileDropzone.Enter os_event;
                              FileDropzone.Enter web_event]
                             (dropzone plain_args false None))
                          [FileDropzone.Leave os_event; FileDropzone.Over os_event;
                           FileDropzone.Drop web_event]
                          eq_refl eq_refl eq_refl _))).
  repeat constructor; discriminate.
Defined.

Lemma dropped_files_reach_a_bound_chooser_witness :
  let w := dropzone plain_args true (Some os_wrapper) in
  let bound := world_after (FileUpload.bindListeners_install chooser w) in
  let r := FileDropzone.didDrop dataTransfer filesOrItems os_event bound in
  invoked (world_after r) =
    [Invoke on_drop (DropArgs [new_UploadFile X DragAndDrop; new_UploadFile Y DragAndDrop]
                       (Some os_wrapper))]
  /\ scheduled (world_after r) =
     [Invoke on_add (FileArg (new_UploadFile X DragAndDrop));
      Invoke on_add (FileArg (new_UploadFile Y DragAndDrop))].
Proof.
  cbv zeta.
  destruct (FileDropzone.dropped_files_reach_a_bound_chooser dataTransfer
              filesOrItems chooser on_add os_event
              (dropzone plain_args true (Some os_wrapper)) os_wrapper
              eq_refl eq_refl eq_refl eq_refl eq_refl eq_refl)
    as (_ & _ & _ & _ & Hcalls & Hwaiting & _).
  exact (conj Hcalls Hwaiting).
Defined.

Lemma bound_dropzone_calls_onFileAdd_first_witness :
  let w := dropzone (with_onFileAdd on_add plain_args) true (Some os_wrapper) in
  let bound := world_after (FileDropzone.bindListeners_install w) in
  let r := FileDropzone.didDrop dataTransfer filesOrItems os_event bound in
  invoked (world_after r) =
    [Invoke on_add (FileArg (new_UploadFile X DragAndDrop));
     Invoke on_add (FileArg (new_UploadFile Y DragAndDrop));
     Invoke on_drop (DropArgs [new_UploadFile X DragAndDrop; new_UploadFile Y DragAndDrop]
                       (Some os_wrapper))].
Proof.
  cbv zeta.
  destruct (FileDropzone.bound_dropzone_calls_onFileAdd_first dataTransfer
              filesOrItems os_event
              (dropzone (with_onFileAdd on_add plain_args) true (Some os_wrapper))
              os_wrapper eq_refl eq_refl eq_refl)
    as (_ & _ & Hcalls & _).
  exact Hcalls.
Defined.

Lemma chooser_binds_and_unbinds_witness :
  let w := dropzone plain_args false None in
  let w1 := world_after (FileUpload.bindListeners_install chooser w) in
  let w2 := world_after (FileUpload.bindListeners_teardown chooser w1) in
  queue_listeners (the_queue DEFAULT_QUEUE w1) = [FileUpload.as_listener chooser]
  /\ the_queue DEFAULT_QUEUE w2 = empty_queue.
Proof.
  cbv zeta.
  destruct (chooser_binds_and_unbinds chooser (dropzone plain_args false None))
    as (Hbound & _ & _ & Hunbound & _).
  - constructor.
  - exact (conj Hbound (Hunbound DEFAULT_QUEUE)).
Defined.

Lemma generated_input_ids_differ_witness :
  let other := {| upload_guid := 9; upload_args := upload_args chooser |} in
  FileUpload.for_ guidFor chooser <> FileUpload.for_ guidFor other.
Proof.
  cbv zeta.
  assert (Hinj : Inj (=) (=) guidFor).
  { intros n m Hnm. unfold guidFor in Hnm.
    apply (inj (String.append "ember")) in Hnm. by apply (inj pretty) in Hnm. }
  assert (Hne : upload_guid chooser <> 9) by discriminate.
  exact (proj1 (generated_input_ids_differ guidFor chooser
                  {| upload_guid := 9; upload_args := upload_args chooser |}
                  Hinj eq_refl eq_refl Hne)).
Defined.

Lemma handlers_without_wrapper_witness :
  let w := dropzone (with_allowUploadsFromWebsites true plain_args) false None in
  FileDropzone.didLeaveDropzone dataTransfer filesOrItems os_event w = (Returned tt, w)
  /\ FileDropzone.didDrop dataTransfer filesOrItems os_event w = (Returned tt, w).
Proof.
  cbv zeta.
  destruct (FileDropzone.handlers_without_wrapper dataTransfer filesOrItems os_event
              (dropzone (with_allowUploadsFromWebsites true plain_args) false None)
              eq_refl)
    as (Hleave & Hdrop & _).
  exact (conj Hleave (Hdrop eq_refl)).
Defined.
